(** * RenewDSL: the parsing engine of [src/parser/parser.py]

    A shallow embedding of the indentation preprocessor, of the
    tree-to-model transformer callbacks and of the domain model of
    [src/parser/ast_nodes.py], with the properties of the specification
    stated over them. *)

From Stdlib Require Import List String Ascii Bool Arith Lia ZArith.
From Stdlib Require Import Floats.SpecFloat DecimalString Sorted.
From stdpp Require Import base option gmap strings.
Import ListNotations.
Local Open Scope string_scope.
#[global] Set Warnings "-register-all".

(** ** Python string primitives used by the source

    A Python [str] is modelled as a [string] whose characters are code
    points below 256 (this covers the degree sign and the superscript two of
    the grammar). *)

Module PyStr.

(** [str.isspace] on one character, for code points below 256. *)
Definition is_space (c : ascii) : bool :=
  let n := nat_of_ascii c in
  (Nat.leb 9 n && Nat.leb n 13) || (Nat.leb 28 n && Nat.leb n 32)
  || Nat.eqb n 133 || Nat.eqb n 160.

(** [s.lstrip()] *)
Fixpoint lstrip (s : string) : string :=
  match s with
  | EmptyString => EmptyString
  | String c s' => if is_space c then lstrip s' else s
  end.

(** [s.strip()] is only used through its truth value: [not line.strip()]
    holds exactly when every character of the line is white space, that is
    when [lstrip] leaves nothing. *)
Definition strip_is_empty (s : string) : bool :=
  match lstrip s with EmptyString => true | _ => false end.

(** [c * n] for a one-character or longer string [c]. *)
Fixpoint repeat_str (c : string) (n : nat) : string :=
  match n with
  | O => EmptyString
  | S n' => c ++ repeat_str c n'
  end.

Fixpoint drop (n : nat) (s : string) : string :=
  match n, s with
  | O, _ => s
  | S _, EmptyString => EmptyString
  | S n', String _ s' => drop n' s'
  end.

(** [s.replace(old, new, 1)]: the first occurrence of [old], scanning from
    the left, is replaced; without an occurrence the string is returned as
    it is. *)
Fixpoint replace_first (old new s : string) : string :=
  if String.prefix old s then new ++ drop (String.length old) s
  else match s with
       | EmptyString => EmptyString
       | String c s' => String c (replace_first old new s')
       end.

(** [s.split('\n')]; [acc] is the part of the current line read so far. *)
Fixpoint split_nl_acc (acc : string) (s : string) : list string :=
  match s with
  | EmptyString => [acc]
  | String c s' =>
      if Ascii.eqb c "010"%char
      then acc :: split_nl_acc EmptyString s'
      else split_nl_acc (acc ++ String c EmptyString) s'
  end.

Definition split_nl (s : string) : list string := split_nl_acc EmptyString s.

(** ['\n'.join(ls)] *)
Fixpoint join_nl (ls : list string) : string :=
  match ls with
  | [] => EmptyString
  | [l] => l
  | l :: rest => l ++ String "010"%char (join_nl rest)
  end.

End PyStr.

(** ** The indentation preprocessor ([IndentPreprocessor]) *)

Module IndentPreprocessor.

Import PyStr.

Definition INDENT : string := "<INDENT>".
Definition DEDENT : string := "<DEDENT>".

(** The two mutable fields of the object that [process] updates; [output]
    and [indent_stack] are Python lists, appended to and popped from at
    their end. *)
Record state := mkState {
  output : list string;
  indent_stack : list nat
}.

(** [IndentPreprocessor.__init__]: the fields other than [lines]. *)
Definition init : state := mkState [] [0].

(** [self.indent_stack[-1]]; the stack is never empty where it is read. *)
Definition top (st : list nat) : nat := List.last st 0.

(** [len(line) - len(line.lstrip())] *)
Definition indent_of (line : string) : nat :=
  String.length line - String.length (lstrip line).

(** The loop
    [while self.indent_stack and indent < self.indent_stack[-1]: pop; append DEDENT].
    Every iteration pops one level, so [length indent_stack] iterations are
    enough; with no fuel left the stack is empty and the loop has ended. *)
Fixpoint dedent_loop (fuel : nat) (indent : nat) (s : state) : state :=
  match fuel with
  | O => s
  | S fuel' =>
      match indent_stack s with
      | [] => s
      | _ :: _ =>
          if Nat.ltb indent (top (indent_stack s))
          then dedent_loop fuel' indent
                 (mkState (output s ++ [DEDENT])%list (List.removelast (indent_stack s)))
          else s
      end
  end.

(** One iteration of [for line in self.lines]. *)
Definition step (s : state) (line : string) : state :=
  if strip_is_empty line then
    mkState (output s ++ [""])%list (indent_stack s)
  else
    let indent := indent_of line in
    if Nat.ltb (top (indent_stack s)) indent then
      let stack' := (indent_stack s ++ [indent])%list in
      mkState
        (output s ++ [replace_first (repeat_str " " indent)
                        (repeat_str INDENT (List.length stack' - 1)) line])%list
        stack'
    else if Nat.ltb indent (top (indent_stack s)) then
      let s' := dedent_loop (List.length (indent_stack s)) indent s in
      mkState (output s' ++ [line])%list (indent_stack s')
    else
      mkState (output s ++ [line])%list (indent_stack s).

(** The loop [while len(self.indent_stack) > 1: pop; append DEDENT]. *)
Fixpoint close_loop (fuel : nat) (s : state) : state :=
  match fuel with
  | O => s
  | S fuel' =>
      if Nat.ltb 1 (List.length (indent_stack s))
      then close_loop fuel'
             (mkState (output s ++ [DEDENT])%list (List.removelast (indent_stack s)))
      else s
  end.

Definition run_lines (s : state) (lines : list string) : state :=
  List.fold_left step lines s.

(** The state in which [process] leaves the object. *)
Definition process_state (text : string) : state :=
  let s := run_lines init (split_nl text) in
  close_loop (List.length (indent_stack s)) s.

(** [IndentPreprocessor(text).process()] *)
Definition process (text : string) : string :=
  join_nl (output (process_state text)).

(** *** Notions used in the statements *)

Definition spaces (w : nat) : string := repeat_str " " w.

(** A line that starts with a character that is not white space. *)
Definition starts_black (body : string) : Prop :=
  match body with
  | EmptyString => False
  | String c _ => is_space c = false
  end.

End IndentPreprocessor.

(** ** Python floats

    A Python [float] is an IEEE 754 binary64 value; it is modelled by the
    Standard Library's [spec_float] at precision 53 and exponent bound
    1024. *)

Module PyFloat.

Definition float := spec_float.

Definition digit_of (c : ascii) : option Z :=
  let n := nat_of_ascii c in
  if Nat.leb 48 n && Nat.leb n 57 then Some (Z.of_nat (n - 48)) else None.

(** Reads a run of decimal digits: the number read so far, how many digits
    were read, and the rest of the text. *)
Fixpoint read_digits (acc : Z) (count : nat) (s : string) : Z * nat * string :=
  match s with
  | EmptyString => (acc, count, s)
  | String c s' =>
      match digit_of c with
      | Some d => read_digits (10 * acc + d)%Z (S count) s'
      | None => (acc, count, s)
      end
  end.

(** The value [numerator / 10 ^ frac_digits], rounded to nearest even. *)
Definition round_decimal (numerator : Z) (frac_digits : nat) : float :=
  match numerator with
  | Z0 => S754_zero false
  | _ =>
      let '(q, e, l) :=
        SFdiv_core_binary 53 1024 numerator 0 (10 ^ Z.of_nat frac_digits)%Z 0 in
      binary_round_aux 53 1024 false q e l
  end.

(** [float(n)] for a lexeme [n] of the terminal
    [NUMBER: /[0-9]+\.?[0-9]*/]; [None] for any other text.  Python's
    conversion is correctly rounded, and so is this one. *)
Definition float_of_number (s : string) : option float :=
  let '(n1, c1, rest) := read_digits 0 0 s in
  match c1 with
  | O => None
  | S _ =>
      match rest with
      | EmptyString => Some (round_decimal n1 0)
      | String "."%char frac =>
          match read_digits n1 0 frac with
          | (n2, c2, EmptyString) => Some (round_decimal n2 c2)
          | _ => None
          end
      | _ => None
      end
  end.

(** *** [float(s)] and [int(s)] on any string *)

Definition is_digit (c : ascii) : bool :=
  match digit_of c with Some _ => true | None => false end.

(** The white space that [float] and [int] skip at both ends of a string:
    the six ASCII white space characters, and the two spaces above 127
    (U+0085 and U+00A0), which are turned into a blank first.  The four
    separators U+001C to U+001F, white space for [str.strip], are not
    skipped. *)
Definition is_number_space (c : ascii) : bool :=
  let n := nat_of_ascii c in
  (Nat.leb 9 n && Nat.leb n 13) || Nat.eqb n 32 || Nat.eqb n 133
  || Nat.eqb n 160.

Fixpoint lstrip_space (cs : list ascii) : list ascii :=
  match cs with
  | [] => []
  | c :: cs' => if is_number_space c then lstrip_space cs' else cs
  end.

Definition strip_space (cs : list ascii) : list ascii :=
  List.rev (lstrip_space (List.rev (lstrip_space cs))).

Definition is_underscore (c : ascii) : bool := Ascii.eqb c "_"%char.

(** The underscores of a numeric literal: each one stands between two
    digits.  [after_digit] tells whether the character before [cs] is a
    digit. *)
Fixpoint underscores_ok (after_digit : bool) (cs : list ascii) : bool :=
  match cs with
  | [] => true
  | c :: cs' =>
      if is_underscore c
      then after_digit
           && match cs' with
              | c' :: _ => is_digit c'
              | [] => false
              end
           && underscores_ok false cs'
      else underscores_ok (is_digit c) cs'
  end.

Definition remove_underscores (cs : list ascii) : list ascii :=
  List.filter (fun c => negb (is_underscore c)) cs.

(** An optional sign: whether it is a minus, and what follows it. *)
Definition split_sign (cs : list ascii) : bool * list ascii :=
  match cs with
  | c :: cs' =>
      if Ascii.eqb c "-"%char then (true, cs')
      else if Ascii.eqb c "+"%char then (false, cs')
      else (false, cs)
  | [] => (false, cs)
  end.

(** [read_digits] on a list of characters. *)
Fixpoint read_digit_run (acc : Z) (count : nat) (cs : list ascii)
  : Z * nat * list ascii :=
  match cs with
  | [] => (acc, count, cs)
  | c :: cs' =>
      match digit_of c with
      | Some d => read_digit_run (10 * acc + d)%Z (S count) cs'
      | None => (acc, count, cs)
      end
  end.

(** The value [n * 10 ^ exp10] with the given sign, rounded to nearest
    even; a value too large for a float is an infinity. *)
Definition round_scaled (sign : bool) (n : Z) (exp10 : Z) : float :=
  match n with
  | Z0 => S754_zero sign
  | _ =>
      let '(num, den) :=
        if (0 <=? exp10)%Z then ((n * 10 ^ exp10)%Z, 1%Z)
        else (n, (10 ^ (- exp10))%Z) in
      let '(q, e, l) := SFdiv_core_binary 53 1024 num 0 den 0 in
      binary_round_aux 53 1024 sign q e l
  end.

Definition lower (c : ascii) : ascii :=
  let n := nat_of_ascii c in
  if Nat.leb 65 n && Nat.leb n 90 then ascii_of_nat (n + 32) else c.

(** [cs] is the word [w], whatever the case of its letters. *)
Definition is_word (w : string) (cs : list ascii) : bool :=
  String.eqb (string_of_list_ascii (List.map lower cs)) w.

(** [float(s)] for any string [s]; [None] stands for [ValueError].  The
    string is stripped of white space at both ends; underscores are
    accepted between digits and dropped; then comes an optional sign and
    either [inf], [infinity] or [nan] in any case, or digits with an
    optional point and an optional exponent, with a digit before or after
    the point. *)
Definition float_of_str (s : string) : option float :=
  let stripped := strip_space (list_ascii_of_string s) in
  if negb (underscores_ok false stripped) then None
  else
    let '(sign, body) := split_sign (remove_underscores stripped) in
    if is_word "inf" body || is_word "infinity" body
    then Some (S754_infinity sign)
    else if is_word "nan" body then Some S754_nan
    else
      let '(n1, c1, rest1) := read_digit_run 0 0 body in
      let '(n2, c2, rest2) :=
        match rest1 with
        | c :: frac =>
            if Ascii.eqb c "."%char then read_digit_run n1 0 frac
            else (n1, 0, rest1)
        | [] => (n1, 0, rest1)
        end in
      match (c1 + c2)%nat with
      | O => None
      | S _ =>
          match rest2 with
          | [] => Some (round_scaled sign n2 (- Z.of_nat c2))
          | c :: rest3 =>
              if Ascii.eqb (lower c) "e"%char
              then
                let '(exp_sign, exp_body) := split_sign rest3 in
                match read_digit_run 0 0 exp_body with
                | (ex, S _, []) =>
                    Some (round_scaled sign n2
                            ((if exp_sign then - ex else ex)
                             - Z.of_nat c2)%Z)
                | _ => None
                end
              else None
          end
      end.

(** [int(s)] for any string [s], in base ten; [None] stands for
    [ValueError].  The string is stripped as for [float]; then comes an
    optional sign and digits, with underscores between digits. *)
Definition int_of_str (s : string) : option Z :=
  let stripped := strip_space (list_ascii_of_string s) in
  let '(sign, body) := split_sign stripped in
  if negb (underscores_ok false body) then None
  else
    match read_digit_run 0 0 (remove_underscores body) with
    | (n, S _, []) => Some (if sign then (- n)%Z else n)
    | _ => None
    end.

(** How many digits [s] holds: recent versions of Python refuse to convert
    a string of more than 4300 digits, older ones convert it. *)
Definition digit_count (s : string) : nat :=
  List.length (List.filter is_digit (list_ascii_of_string s)).

(** [bool(x)]: a float is false exactly when it is a zero. *)
Definition truthy (x : float) : bool :=
  match x with
  | S754_zero _ => false
  | _ => true
  end.

(** [-x] *)
Definition neg (x : float) : float := SFopp x.

(** The integer that [int(x)] returns for a finite [x]: truncation towards
    zero. *)
Definition trunc (s : bool) (m : positive) (e : Z) : Z :=
  let magnitude :=
    if (0 <=? e)%Z then Z.shiftl (Zpos m) e else Z.shiftr (Zpos m) (- e) in
  if s then (- magnitude)%Z else magnitude.

End PyFloat.

(** ** Parse trees of the Lark library

    [Lark(GRAMMAR, parser='lalr').parse] returns a tree whose branches carry
    the name of a grammar rule and whose leaves are tokens.  The rules are
    those of [GRAMMAR]. *)

Module Lark.

Inductive rule :=
  | start | statement | site_def | site_attr | coordinate | direction_ns
  | direction_ew | equipment_section | equipment_item | equipment_type
  | spec_block | equipment_spec | layout_def | layout_attr | equipment_ref
  | orientation | tracking_mode | angle | simulate_def | simulate_attr
  | weather_source | output_list | optimize_def | optimize_attr
  | objective_expr | variable_list | quantity | unit_ | duration | string_.

(** [tree.data] as a Python string. *)
Definition rule_name (r : rule) : string :=
  match r with
  | start => "start" | statement => "statement" | site_def => "site_def"
  | site_attr => "site_attr" | coordinate => "coordinate"
  | direction_ns => "direction_ns" | direction_ew => "direction_ew"
  | equipment_section => "equipment_section"
  | equipment_item => "equipment_item" | equipment_type => "equipment_type"
  | spec_block => "spec_block" | equipment_spec => "equipment_spec"
  | layout_def => "layout_def" | layout_attr => "layout_attr"
  | equipment_ref => "equipment_ref" | orientation => "orientation"
  | tracking_mode => "tracking_mode" | angle => "angle"
  | simulate_def => "simulate_def" | simulate_attr => "simulate_attr"
  | weather_source => "weather_source" | output_list => "output_list"
  | optimize_def => "optimize_def" | optimize_attr => "optimize_attr"
  | objective_expr => "objective_expr" | variable_list => "variable_list"
  | quantity => "quantity" | unit_ => "unit" | duration => "duration"
  | string_ => "string"
  end.

(** The named terminals of [GRAMMAR] that stay in the tree.  The terminals
    [_NL], [_INDENT] and [_DEDENT] start with an underscore and every other
    terminal is an unnamed string literal such as ["site"], [":"] or ["N"]:
    Lark filters both kinds out of the tree, since no rule of [GRAMMAR] is
    declared with [!] and [keep_all_tokens] is not set. *)
Inductive terminal := NUMBER | NAME | ESCAPED_STRING.

Inductive tree :=
  | Tree (data : rule) (children : list tree)
  | Token (type : terminal) (text : string).

End Lark.

(** ** Python values that the transformer handles

    The callbacks are dynamically typed: an argument may be a string, a
    float, a Lark tree left as it is (a rule with no callback), a tuple, a
    list, a dict, or an instance of a dataclass of [ast_nodes.py].  A token
    is a [str] and no callback reads its type, so it is a [VStr]. *)

Inductive TrackingMode := FIXED | SINGLE_AXIS | DUAL_AXIS.

Inductive value :=
  | VNone
  | VBool (b : bool)
  | VInt (n : Z)
  | VFloat (x : PyFloat.float)
  | VStr (s : string)
  | VTree (data : Lark.rule) (children : list value)
  | VTuple (a b : value)
  | VList (l : list value)
  | VDict (d : gmap string value)
  | VEnum (m : TrackingMode)
  (* the dataclasses of ast_nodes.py, fields in declaration order *)
  | Coordinate (latitude longitude : value)
  | Quantity (value_ unit : value)
  | Site (name location area terrain irradiance elevation : value)
  | Equipment (type name from_catalog specs : value)
  | EquipmentRef (name count : value)
  | Layout (name panels inverters turbines orientation tilt row_spacing
            tracking count : value)
  | WeatherSource (provider args : value)
  | Simulation (weather duration timestep outputs : value)
  | Objective (mode target : value)
  | Optimization (objective variables constraints algorithm : value)
  | Model (site : value) (equipment layouts : list value)
          (simulation optimization : value).

(** Python exceptions raised inside a callback.  [Unmodelled] is not one of
    them: it marks a call whose outcome lies outside this model, because
    the value that Python returns is not a [value] (a tuple that is not a
    pair, a dict with a key that is not a string or whose order of keys
    matters) or because the outcome depends on the version of Python. *)
Inductive exn :=
  | AttributeError | TypeError | IndexError | ValueError | OverflowError
  | Unmodelled.

(** ** The dataclasses of [ast_nodes.py]: construction with [__post_init__] *)

Module Ast.

(** [Equipment(type=, name=, specs=)]; [from_catalog] defaults to [False]. *)
Definition new_Equipment (type name specs : value) : value :=
  Equipment type name (VBool false)
    (match specs with VNone => VDict ∅ | _ => specs end).

(** [EquipmentRef(name, count)] *)
Definition new_EquipmentRef (name count : value) : value :=
  EquipmentRef name count.

(** [Layout(name=, panels=, inverters=, orientation=, tilt=, row_spacing=,
    tracking=)]; [turbines] and [count] default to [None]. *)
Definition new_Layout (name panels inverters orientation tilt row_spacing
                       tracking : value) : value :=
  Layout name panels inverters VNone orientation tilt row_spacing tracking
    VNone.

Definition default_outputs : value :=
  VList [VStr "generation"; VStr "capacity_factor"].

(** [Simulation(weather=, duration=, timestep=, outputs=)] *)
Definition new_Simulation (weather duration timestep outputs : value)
  : value :=
  Simulation weather duration timestep
    (match outputs with VNone => default_outputs | _ => outputs end).

(** [Optimization(objective=, variables=, algorithm=)]; [constraints]
    defaults to [None], which [__post_init__] turns into the empty list. *)
Definition new_Optimization (objective variables algorithm : value)
  : value :=
  let constraints := VNone in
  Optimization objective
    (match variables with VNone => VList [] | _ => variables end)
    (match constraints with VNone => VList [] | _ => constraints end)
    algorithm.

(** [Model()]: every field defaults to [None]; [__post_init__] replaces the
    two lists. *)
Definition new_Model : value := Model VNone [] [] VNone VNone.

(** [TrackingMode(s)]: the member with value [s]. *)
Definition TrackingMode_of (s : string) : option TrackingMode :=
  if String.eqb s "fixed" then Some FIXED
  else if String.eqb s "single_axis" then Some SINGLE_AXIS
  else if String.eqb s "dual_axis" then Some DUAL_AXIS
  else None.

End Ast.

(** ** Derivations of [GRAMMAR]

    One type per rule and one constructor per alternative, each carrying the
    lexemes of its [NUMBER], [NAME] and [ESCAPED_STRING] tokens; [x+] is a
    first element and a list.  [tree_of_] builds the tree that Lark returns
    for a derivation: a branch per rule applied, whose children are the
    branches of the rules and the tokens of the named terminals on the
    right-hand side, in order; the unnamed literals and the underscore
    terminals are left out. *)

Module Grammar.

Import Lark.

Inductive direction_ns_d := dir_N | dir_S.
Inductive direction_ew_d := dir_E | dir_W.

Inductive unit_d :=
  | u_m | u_km | u_hectares | u_kW | u_MW | u_kWh_m2_day | u_degree | u_h
  | u_hour | u_day | u_year.

Inductive orientation_d := o_south | o_north | o_east | o_west.
Inductive tracking_mode_d := t_fixed | t_single_axis | t_dual_axis.
Inductive equipment_type_d := e_panel | e_inverter | e_turbine | e_battery.
Inductive objective_mode_d := maximize | minimize.

(** [coordinate: NUMBER "°" direction_ns "," NUMBER "°" direction_ew] *)
Record coordinate_d := mk_coordinate {
  lat : string; ns : direction_ns_d; lon : string; ew : direction_ew_d
}.

(** [quantity: NUMBER unit] and [duration: NUMBER unit] *)
Record quantity_d := mk_quantity { q_number : string; q_unit : unit_d }.

Inductive site_attr_d :=
  | sa_location (c : coordinate_d)
  | sa_area (q : quantity_d)
  | sa_terrain (s : string)
  | sa_irradiance (q : quantity_d)
  | sa_elevation (q : quantity_d).

(** [equipment_spec: NAME ":" (quantity | NUMBER | string) _NL] *)
Inductive spec_value_d :=
  | sv_quantity (q : quantity_d)
  | sv_number (n : string)
  | sv_string (s : string).

Record equipment_spec_d := mk_spec { spec_name : string; spec_value : spec_value_d }.

(** [equipment_item: equipment_type string spec_block? _NL] with
    [spec_block: ":" _NL _INDENT equipment_spec+ _DEDENT] *)
Record equipment_item_d := mk_item {
  item_type : equipment_type_d;
  item_name : string;
  item_specs : option (equipment_spec_d * list equipment_spec_d)
}.

(** [equipment_ref: NAME ("*" NUMBER)?] *)
Record equipment_ref_d := mk_ref { ref_name : string; ref_count : option string }.

Inductive layout_attr_d :=
  | la_panels (r : equipment_ref_d)
  | la_inverters (r : equipment_ref_d)
  | la_orientation (o : orientation_d)
  | la_tilt (angle_number : string)
  | la_row_spacing (q : quantity_d)
  | la_tracking (t : tracking_mode_d).

Inductive simulate_attr_d :=
  | sim_weather (provider : string) (arg : string) (args : list string)
  | sim_duration (d : quantity_d)
  | sim_timestep (d : quantity_d)
  | sim_outputs (name : string) (names : list string).

Inductive optimize_attr_d :=
  | opt_objective (mode : objective_mode_d) (target : string)
  | opt_variables (name : string) (names : list string)
  | opt_algorithm (s : string).

Inductive statement_d :=
  | st_site (name : string) (a : site_attr_d) (attrs : list site_attr_d)
  | st_equipment (i : equipment_item_d) (items : list equipment_item_d)
  | st_layout (name : string) (a : layout_attr_d) (attrs : list layout_attr_d)
  | st_simulate (a : simulate_attr_d) (attrs : list simulate_attr_d)
  | st_optimize (a : optimize_attr_d) (attrs : list optimize_attr_d).

(** [?start: statement+] *)
Record start_d := mk_start { first : statement_d; more : list statement_d }.

Definition tree_of_string (s : string) : tree :=
  Tree string_ [Token ESCAPED_STRING s].

Definition tree_of_coordinate (c : coordinate_d) : tree :=
  Tree coordinate
    [Token NUMBER (lat c); Tree direction_ns [];
     Token NUMBER (lon c); Tree direction_ew []].

Definition tree_of_quantity (q : quantity_d) : tree :=
  Tree quantity [Token NUMBER (q_number q); Tree unit_ []].

Definition tree_of_duration (q : quantity_d) : tree :=
  Tree duration [Token NUMBER (q_number q); Tree unit_ []].

Definition tree_of_site_attr (a : site_attr_d) : tree :=
  Tree site_attr
    [match a with
     | sa_location c => tree_of_coordinate c
     | sa_area q | sa_irradiance q | sa_elevation q => tree_of_quantity q
     | sa_terrain s => tree_of_string s
     end].

Definition tree_of_spec (e : equipment_spec_d) : tree :=
  Tree equipment_spec
    [Token NAME (spec_name e);
     match spec_value e with
     | sv_quantity q => tree_of_quantity q
     | sv_number n => Token NUMBER n
     | sv_string s => tree_of_string s
     end].

Definition tree_of_item (i : equipment_item_d) : tree :=
  Tree equipment_item
    (Tree equipment_type [] :: tree_of_string (item_name i) ::
     match item_specs i with
     | None => []
     | Some (e, es) => [Tree spec_block (List.map tree_of_spec (e :: es))]
     end).

Definition tree_of_ref (r : equipment_ref_d) : tree :=
  Tree equipment_ref
    (Token NAME (ref_name r) ::
     match ref_count r with
     | None => []
     | Some n => [Token NUMBER n]
     end).

Definition tree_of_layout_attr (a : layout_attr_d) : tree :=
  Tree layout_attr
    [match a with
     | la_panels r | la_inverters r => tree_of_ref r
     | la_orientation _ => Tree orientation []
     | la_tilt n => Tree angle [Token NUMBER n]
     | la_row_spacing q => tree_of_quantity q
     | la_tracking _ => Tree tracking_mode []
     end].

Definition tree_of_simulate_attr (a : simulate_attr_d) : tree :=
  Tree simulate_attr
    [match a with
     | sim_weather p x xs =>
         Tree weather_source
           (Token NAME p :: List.map tree_of_string (x :: xs))
     | sim_duration d | sim_timestep d => tree_of_duration d
     | sim_outputs n ns => Tree output_list (List.map (Token NAME) (n :: ns))
     end].

Definition tree_of_optimize_attr (a : optimize_attr_d) : tree :=
  Tree optimize_attr
    [match a with
     | opt_objective _ target => Tree objective_expr [Token NAME target]
     | opt_variables n ns =>
         Tree variable_list (List.map (Token NAME) (n :: ns))
     | opt_algorithm s => tree_of_string s
     end].

Definition tree_of_statement (st : statement_d) : tree :=
  Tree statement
    [match st with
     | st_site name a attrs =>
         Tree site_def
           (tree_of_string name :: List.map tree_of_site_attr (a :: attrs))
     | st_equipment i items =>
         Tree equipment_section (List.map tree_of_item (i :: items))
     | st_layout name a attrs =>
         Tree layout_def
           (tree_of_string name :: List.map tree_of_layout_attr (a :: attrs))
     | st_simulate a attrs =>
         Tree simulate_def (List.map tree_of_simulate_attr (a :: attrs))
     | st_optimize a attrs =>
         Tree optimize_def (List.map tree_of_optimize_attr (a :: attrs))
     end].

(** [start] is declared with [?]: with a single statement the [start]
    branch is left out and the tree is that of the statement. *)
Definition tree_of_start (d : start_d) : tree :=
  match more d with
  | [] => tree_of_statement (first d)
  | _ :: _ => Tree start (List.map tree_of_statement (first d :: more d))
  end.

(** *** The terminals of a derivation

    The tokens that the parser reads for a derivation, in order: unnamed
    literals with their text, the three underscore terminals, and the named
    terminals with their lexeme. *)

Inductive token :=
  | T (literal : string)
  | T_NL | T_INDENT | T_DEDENT
  | T_NUMBER (lexeme : string)
  | T_NAME (lexeme : string)
  | T_STRING (lexeme : string).

Definition degree_sign : string := String (ascii_of_nat 176) EmptyString.
Definition superscript_two : string := String (ascii_of_nat 178) EmptyString.

Definition unit_text (u : unit_d) : string :=
  match u with
  | u_m => "m" | u_km => "km" | u_hectares => "hectares" | u_kW => "kW"
  | u_MW => "MW"
  | u_kWh_m2_day => "kWh/m" ++ superscript_two ++ "/day"
  | u_degree => degree_sign
  | u_h => "h" | u_hour => "hour" | u_day => "day" | u_year => "year"
  end.

Definition yield_quantity (q : quantity_d) : list token :=
  [T_NUMBER (q_number q); T (unit_text (q_unit q))].

Definition yield_coordinate (c : coordinate_d) : list token :=
  [T_NUMBER (lat c); T degree_sign;
   T (match ns c with dir_N => "N" | dir_S => "S" end); T ",";
   T_NUMBER (lon c); T degree_sign;
   T (match ew c with dir_E => "E" | dir_W => "W" end)].

Definition yield_site_attr (a : site_attr_d) : list token :=
  match a with
  | sa_location c => T "location" :: T ":" :: yield_coordinate c
  | sa_area q => T "area" :: T ":" :: yield_quantity q
  | sa_terrain s => [T "terrain"; T ":"; T_STRING s]
  | sa_irradiance q => T "irradiance" :: T ":" :: yield_quantity q
  | sa_elevation q => T "elevation" :: T ":" :: yield_quantity q
  end ++ [T_NL].

Definition yield_spec (e : equipment_spec_d) : list token :=
  T_NAME (spec_name e) :: T ":" ::
  match spec_value e with
  | sv_quantity q => yield_quantity q
  | sv_number n => [T_NUMBER n]
  | sv_string s => [T_STRING s]
  end ++ [T_NL].

Definition yield_item (i : equipment_item_d) : list token :=
  T (match item_type i with
     | e_panel => "panel" | e_inverter => "inverter"
     | e_turbine => "turbine" | e_battery => "battery"
     end) :: T_STRING (item_name i) ::
  match item_specs i with
  | None => []
  | Some (e, es) =>
      T ":" :: T_NL :: T_INDENT :: List.concat (List.map yield_spec (e :: es))
      ++ [T_DEDENT]
  end ++ [T_NL].

Definition yield_ref (r : equipment_ref_d) : list token :=
  T_NAME (ref_name r) ::
  match ref_count r with
  | None => []
  | Some n => [T "*"; T_NUMBER n]
  end.

(** The keyword that starts a [layout_attr] line. *)
Definition layout_attr_keyword (a : layout_attr_d) : string :=
  match a with
  | la_panels _ => "panels"
  | la_inverters _ => "inverters"
  | la_orientation _ => "orientation"
  | la_tilt _ => "tilt"
  | la_row_spacing _ => "row_spacing"
  | la_tracking _ => "tracking"
  end.

Definition yield_layout_value (a : layout_attr_d) : list token :=
  match a with
  | la_panels r | la_inverters r => yield_ref r
  | la_orientation o =>
      [T (match o with
          | o_south => "south" | o_north => "north"
          | o_east => "east" | o_west => "west"
          end)]
  | la_tilt n => [T_NUMBER n; T degree_sign]
  | la_row_spacing q => yield_quantity q
  | la_tracking t =>
      [T (match t with
          | t_fixed => "fixed" | t_single_axis => "single_axis"
          | t_dual_axis => "dual_axis"
          end)]
  end.

Definition yield_layout_attr (a : layout_attr_d) : list token :=
  T (layout_attr_keyword a) :: T ":" :: yield_layout_value a ++ [T_NL].

Fixpoint yield_strings (xs : list string) : list token :=
  match xs with
  | [] => []
  | x :: xs' => T "," :: T_STRING x :: yield_strings xs'
  end.

Fixpoint yield_names (xs : list string) : list token :=
  match xs with
  | [] => []
  | x :: xs' => T "," :: T_NAME x :: yield_names xs'
  end.

Definition yield_simulate_attr (a : simulate_attr_d) : list token :=
  match a with
  | sim_weather p x xs =>
      T "weather" :: T ":" :: T_NAME p :: T "(" :: T_STRING x ::
      yield_strings xs ++ [T ")"]
  | sim_duration d => T "duration" :: T ":" :: yield_quantity d
  | sim_timestep d => T "timestep" :: T ":" :: yield_quantity d
  | sim_outputs n ns =>
      T "outputs" :: T ":" :: T "[" :: T_NAME n :: yield_names ns ++ [T "]"]
  end ++ [T_NL].

Definition yield_optimize_attr (a : optimize_attr_d) : list token :=
  match a with
  | opt_objective mode target =>
      [T "objective"; T ":";
       T (match mode with maximize => "maximize" | minimize => "minimize" end);
       T "("; T_NAME target; T ")"]
  | opt_variables n ns =>
      T "variables" :: T ":" :: T "[" :: T_NAME n :: yield_names ns ++ [T "]"]
  | opt_algorithm s => [T "algorithm"; T ":"; T_STRING s]
  end ++ [T_NL].

Definition block (body : list token) : list token :=
  T ":" :: T_NL :: T_INDENT :: body ++ [T_DEDENT].

Definition yield_statement (st : statement_d) : list token :=
  match st with
  | st_site name a attrs =>
      T "site" :: T_STRING name ::
      block (List.concat (List.map yield_site_attr (a :: attrs)))
  | st_equipment i items =>
      T "equipment" :: block (List.concat (List.map yield_item (i :: items)))
  | st_layout name a attrs =>
      T "layout" :: T_STRING name ::
      block (List.concat (List.map yield_layout_attr (a :: attrs)))
  | st_simulate a attrs =>
      T "simulate" ::
      block (List.concat (List.map yield_simulate_attr (a :: attrs)))
  | st_optimize a attrs =>
      T "optimize" ::
      block (List.concat (List.map yield_optimize_attr (a :: attrs)))
  end.

Definition yield_start (d : start_d) : list token :=
  List.concat (List.map yield_statement (first d :: more d)).

(** The keywords of the [layout_attr] alternatives. *)
Definition layout_keywords : list string :=
  ["panels"; "inverters"; "orientation"; "tilt"; "row_spacing"; "tracking"].

(** *** Notions used in the statements *)

Definition kw_layout : token := T "layout".

(** In a token sequence, every [layout] keyword is followed by a name and
    a block of one or more attribute lines. *)
Definition layout_follow (l : list token) : Prop :=
  forall pre rest,
    l = (pre ++ kw_layout :: rest)%list ->
    exists name a attrs rest',
      rest = (T_STRING name ::
              block (List.concat (List.map yield_layout_attr (a :: attrs)))
              ++ rest')%list.

(** A token that cannot continue a [layout] block: neither one of the six
    keywords nor the end of the block. *)
Definition foreign (k : token) : Prop :=
  k <> T_DEDENT /\ forall kw, List.In kw layout_keywords -> k <> T kw.

(** A token sequence with a [layout] block in which, after any number of
    attribute lines of the grammar, a line starts with a foreign token. *)
Definition foreign_layout_attr (toks : list token) : Prop :=
  exists pre name attrs k rest,
    toks = (pre ++ kw_layout :: T_STRING name :: T ":" :: T_NL :: T_INDENT ::
            List.concat (List.map yield_layout_attr attrs) ++ k :: rest)%list
    /\ foreign k.

End Grammar.

(** ** The lexer of Lark on [GRAMMAR]

    The lexer reads the text from left to right; at each position it tries
    the terminals in a fixed order and takes the first one that matches
    there.  Lark orders the terminals by priority, then by the longest text
    that their pattern can match, longest first.  [WS], imported from
    [common] as a run of one or more of the characters blank, tab, form
    feed, carriage return and line feed, has no bound on its length and is
    declared with [%ignore]; [_NL] matches at most two characters.  So at a
    white space character the lexer reads [WS], whatever comes next, and
    drops it: no token starts with such a character. *)

Module Lexer.

Import Grammar.

(** The characters of [common.WS]. *)
Definition is_ws (c : ascii) : bool :=
  let n := nat_of_ascii c in
  Nat.eqb n 32 || Nat.eqb n 9 || Nat.eqb n 12 || Nat.eqb n 13 || Nat.eqb n 10.

Definition line_feed : string := String "010"%char EmptyString.
Definition carriage_return_line_feed : string := String "013"%char line_feed.

(** The text of a token: that of the literal, a line break for [_NL], the
    marker for [_INDENT] and [_DEDENT], the lexeme for a named terminal. *)
Definition token_text (t : token) (text : string) : Prop :=
  match t with
  | T literal => text = literal
  | T_NL => text = line_feed \/ text = carriage_return_line_feed
  | T_INDENT => text = IndentPreprocessor.INDENT
  | T_DEDENT => text = IndentPreprocessor.DEDENT
  | T_NUMBER lexeme | T_NAME lexeme | T_STRING lexeme => text = lexeme
  end.

Definition starts_with_ws (text : string) : bool :=
  match text with
  | EmptyString => false
  | String c _ => is_ws c
  end.

(** [scans text toks]: the lexer may read the tokens [toks] from [text].
    A white space character is skipped; a token is read where the text
    goes on with the text of the token, which does not start with white
    space.  Which terminal the lexer takes where several match is left
    open: every run of the lexer is a case of this relation. *)
Inductive scans : string -> list token -> Prop :=
  | scans_end : scans EmptyString []
  | scans_ignore c text toks :
      is_ws c = true -> scans text toks -> scans (String c text) toks
  | scans_token t lexeme text toks :
      token_text t lexeme ->
      starts_with_ws lexeme = false ->
      scans text toks ->
      scans (lexeme ++ text) (t :: toks).

End Lexer.

(** ** The transformer ([RenewDSLTransformer]) *)

Module Transformer.

(** [self.model]: the [Model] instance that the callbacks update. *)
Record model_state := mkModel {
  m_site : value;
  m_equipment : list value;
  m_layouts : list value;
  m_simulation : value;
  m_optimization : value
}.

(** [RenewDSLTransformer.__init__]: [self.model = Model()] *)
Definition init_model : model_state := mkModel VNone [] [] VNone VNone.

Definition model_value (m : model_state) : value :=
  Model (m_site m) (m_equipment m) (m_layouts m) (m_simulation m)
    (m_optimization m).

(** A callback runs on [self.model] and either raises or returns a value
    and the updated model. *)
Definition py (A : Type) : Type := model_state -> exn + (A * model_state).

Definition ret {A} (a : A) : py A := fun m => inr (a, m).
Definition raise {A} (e : exn) : py A := fun _ => inl e.
Definition bind {A B} (c : py A) (k : A -> py B) : py B :=
  fun m => match c m with
           | inl e => inl e
           | inr (a, m') => k a m'
           end.
Definition get_model : py model_state := fun m => inr (m, m).
Definition set_model (m' : model_state) : py unit := fun _ => inr (tt, m').

Notation "x <- c ;; k" := (bind c (fun x => k))
  (at level 100, c at next level, right associativity).

(** *** Python operations used by the callbacks *)

(** [v == s] for a string literal [s].  A Lark [Tree] compares its [data]
    and [children] with those of the other operand and answers [False]
    when the other operand has none, as a [str] does. *)
Definition eq_str (v : value) (s : string) : bool :=
  match v with
  | VStr t => String.eqb t s
  | _ => false
  end.

(** [-v] *)
Definition py_neg (v : value) : py value :=
  match v with
  | VFloat x => ret (VFloat (PyFloat.neg x))
  | VInt n => ret (VInt (- n))
  | VBool b => ret (VInt (if b then -1 else 0))
  | _ => raise TypeError
  end.

(** [bool(v)] *)
Definition truthy (v : value) : bool :=
  match v with
  | VNone => false
  | VBool b => b
  | VInt n => negb (Z.eqb n 0)
  | VFloat x => PyFloat.truthy x
  | VStr s => negb (String.eqb s "")
  | VList l => match l with [] => false | _ => true end
  | VDict d => match map_to_list d with [] => false | _ => true end
  | _ => true
  end.

(** [float(n)] for an [int]: correctly rounded, and [OverflowError] when the
    integer is too large for a float. *)
Definition float_of_int (n : Z) : py value :=
  match binary_normalize 53 1024 n 0 false with
  | S754_infinity _ => raise OverflowError
  | x => ret (VFloat x)
  end.

(** [float(v)] *)
Definition py_float (v : value) : py value :=
  match v with
  | VFloat x => ret (VFloat x)
  | VInt n => float_of_int n
  | VBool b => float_of_int (if b then 1 else 0)
  | VStr s => match PyFloat.float_of_str s with
              | Some x => ret (VFloat x)
              | None => raise ValueError
              end
  | _ => raise TypeError
  end.

(** [int(v)]: a float is truncated towards zero, a string is read in base
    ten. *)
Definition py_int (v : value) : py value :=
  match v with
  | VFloat (S754_finite s m e) => ret (VInt (PyFloat.trunc s m e))
  | VFloat (S754_zero _) => ret (VInt 0)
  | VFloat (S754_infinity _) => raise OverflowError
  | VFloat S754_nan => raise ValueError
  | VInt n => ret (VInt n)
  | VBool b => ret (VInt (if b then 1 else 0))
  | VStr s => match PyFloat.int_of_str s with
              | Some n =>
                  if Nat.ltb 4300 (PyFloat.digit_count s)
                  then raise Unmodelled
                  else ret (VInt n)
              | None => raise ValueError
              end
  | _ => raise TypeError
  end.

(** [v.data]: only a tree has this attribute. *)
Definition get_data (v : value) : py value :=
  match v with
  | VTree d _ => ret (VStr (Lark.rule_name d))
  | _ => raise AttributeError
  end.

(** [items[i]] *)
Definition item (items : list value) (i : nat) : py value :=
  match List.nth_error items i with
  | Some v => ret v
  | None => raise IndexError
  end.

(** [s[1:-1]] on a string. *)
Definition strip_quotes (s : string) : string :=
  match s with
  | EmptyString => EmptyString
  | String _ s' => String.substring 0 (String.length s' - 1) s'
  end.

(** The two elements that [dict] takes from one item of its argument: the
    item is iterated, so it may be a pair, a list or a string of length
    two, or a mapping with two keys (whose order this model has not);
    another length is a [ValueError], an item that cannot be iterated a
    [TypeError]. *)
Definition as_pair (i : value) : py (value * value) :=
  match i with
  | VTuple k v => ret (k, v)
  | VList [k; v] => ret (k, v)
  | VList _ => raise ValueError
  | VStr (String a (String b EmptyString)) =>
      ret (VStr (String a EmptyString), VStr (String b EmptyString))
  | VStr _ => raise ValueError
  | VDict d => if Nat.eqb (size d) 2 then raise Unmodelled
               else raise ValueError
  | _ => raise TypeError
  end.

(** The key of an entry: a string.  A list, a dict and an instance of a
    dataclass cannot be hashed; with any other key Python builds a dict
    that is not a [gmap string value]. *)
Definition as_key (k : value) : py string :=
  match k with
  | VStr s => ret s
  | VNone | VBool _ | VInt _ | VFloat _ | VTree _ _ | VTuple _ _ | VEnum _ =>
      raise Unmodelled
  | _ => raise TypeError
  end.

(** [dict(items)]: the entries are added from left to right, a later one
    replacing an earlier one with the same key. *)
Fixpoint dict_acc (d : gmap string value) (items : list value)
  : py (gmap string value) :=
  match items with
  | [] => ret d
  | i :: rest =>
      kv <- as_pair i ;;
      k <- as_key kv.1 ;;
      dict_acc (<[k := kv.2]> d) rest
  end.

Definition dict (items : list value) : py (gmap string value) :=
  dict_acc ∅ items.

(** [attrs.get(key)] and [attrs.get(key, default)] *)
Definition get (attrs : gmap string value) (key : string) : value :=
  default VNone (attrs !! key).

Definition get_or (attrs : gmap string value) (key : string) (dflt : value)
  : value :=
  default dflt (attrs !! key).

(** Calling a method decorated with [v_args(inline=True)]: the children
    become the positional arguments; a wrong number of them is a
    [TypeError]. *)
Definition inline1 (f : value -> py value) (children : list value) : py value :=
  match children with
  | [a] => f a
  | _ => raise TypeError
  end.

Definition inline2 (f : value -> value -> py value) (children : list value)
  : py value :=
  match children with
  | [a; b] => f a b
  | _ => raise TypeError
  end.

Definition inline4 (f : value -> value -> value -> value -> py value)
  (children : list value) : py value :=
  match children with
  | [a; b; c; d] => f a b c d
  | _ => raise TypeError
  end.

Section Callbacks.

(** [str(v)] and the formatting of [v] in an f-string, for a value that is
    not a string already (a float, a tree): the text itself is not
    modelled. *)
Variable repr : value -> string.

Definition py_str (v : value) : string :=
  match v with
  | VStr s => s
  | _ => repr v
  end.

(** *** The callbacks, in the order of the source *)

(** [s[1:-1]]: a slice of a string or of a list; the slice of a pair is
    the empty tuple. *)
Definition string_ (s : value) : py value :=
  match s with
  | VStr t => ret (VStr (strip_quotes t))
  | VList l => ret (VList (List.removelast (List.tl l)))
  | VTuple _ _ | VDict _ => raise Unmodelled
  | _ => raise TypeError
  end.

Definition NUMBER (n : value) : py value := py_float n.

Definition NAME (n : value) : py value := ret (VStr (py_str n)).

Definition coordinate (lat ns lon ew : value) : py value :=
  lat_val <- (if eq_str ns "N" then ret lat else py_neg lat) ;;
  lon_val <- (if eq_str ew "E" then ret lon else py_neg lon) ;;
  ret (Coordinate lat_val lon_val).

Definition quantity (value_ unit : value) : py value :=
  ret (Quantity value_ (VStr (py_str unit))).

Definition angle (value_ : value) : py value := py_float value_.

Definition duration (value_ unit : value) : py value :=
  ret (VStr (py_str value_ ++ py_str unit)).

Definition site_attr (items : list value) : py value :=
  i0 <- item items 0 ;;
  attr_name <- get_data i0 ;;
  value_ <- item items 1 ;;
  ret (VTuple attr_name value_).

Definition site_def (items : list value) : py value :=
  name <- item items 0 ;;
  attrs <- dict (List.tl items) ;;
  let site := Site name (get attrs "location") (get attrs "area")
                (get attrs "terrain") (get attrs "irradiance")
                (get attrs "elevation") in
  m <- get_model ;;
  _ <- set_model (mkModel site (m_equipment m) (m_layouts m)
                    (m_simulation m) (m_optimization m)) ;;
  ret site.

Definition equipment_type (type_name : value) : py value :=
  ret (VStr (py_str type_name)).

Definition equipment_spec (items : list value) : py value :=
  i0 <- item items 0 ;;
  value_ <- item items 1 ;;
  ret (VTuple (VStr (py_str i0)) value_).

Definition spec_block (items : list value) : py value :=
  d <- dict items ;;
  ret (VDict d).

Definition equipment_item (items : list value) : py value :=
  eq_type <- item items 0 ;;
  name <- item items 1 ;;
  specs <- (if Nat.ltb 2 (List.length items) then item items 2
            else ret (VDict ∅)) ;;
  let equipment := Ast.new_Equipment eq_type name specs in
  m <- get_model ;;
  _ <- set_model (mkModel (m_site m) (m_equipment m ++ [equipment])%list
                    (m_layouts m) (m_simulation m) (m_optimization m)) ;;
  ret equipment.

Definition equipment_section (items : list value) : py value :=
  ret (VList items).

Definition equipment_ref (name count : value) : py value :=
  c <- (if truthy count then py_int count else ret VNone) ;;
  ret (Ast.new_EquipmentRef name c).

(** [equipment_ref(self, name, count=None)] called with the children. *)
Definition equipment_ref_inline (children : list value) : py value :=
  match children with
  | [name] => equipment_ref name VNone
  | [name; count] => equipment_ref name count
  | _ => raise TypeError
  end.

Definition tracking_mode (mode : value) : py value :=
  match Ast.TrackingMode_of (py_str mode) with
  | Some t => ret (VEnum t)
  | None => raise ValueError
  end.

Definition layout_attr (items : list value) : py value :=
  i0 <- item items 0 ;;
  attr_name <- get_data i0 ;;
  value_ <- item items 1 ;;
  ret (VTuple attr_name value_).

Definition layout_def (items : list value) : py value :=
  name <- item items 0 ;;
  attrs <- dict (List.tl items) ;;
  let layout := Ast.new_Layout name (get attrs "panels")
                  (get attrs "inverters") (get attrs "orientation")
                  (get attrs "tilt") (get attrs "row_spacing")
                  (get attrs "tracking") in
  m <- get_model ;;
  _ <- set_model (mkModel (m_site m) (m_equipment m)
                    (m_layouts m ++ [layout])%list
                    (m_simulation m) (m_optimization m)) ;;
  ret layout.

Definition weather_source (items : list value) : py value :=
  provider <- item items 0 ;;
  ret (WeatherSource provider (VList (List.tl items))).

Definition output_list (items : list value) : py value :=
  ret (VList (List.map (fun i => VStr (py_str i)) items)).

Definition simulate_attr (items : list value) : py value :=
  i0 <- item items 0 ;;
  attr_name <- get_data i0 ;;
  value_ <- item items 1 ;;
  ret (VTuple attr_name value_).

Definition simulate_def (items : list value) : py value :=
  attrs <- dict items ;;
  let simulation := Ast.new_Simulation (get attrs "weather")
                      (get attrs "duration") (get attrs "timestep")
                      (get attrs "outputs") in
  m <- get_model ;;
  _ <- set_model (mkModel (m_site m) (m_equipment m) (m_layouts m)
                    simulation (m_optimization m)) ;;
  ret simulation.

Definition objective_expr (mode target : value) : py value :=
  ret (Objective (VStr (py_str mode)) (VStr (py_str target))).

Definition variable_list (items : list value) : py value :=
  ret (VList (List.map (fun i => VStr (py_str i)) items)).

Definition optimize_attr (items : list value) : py value :=
  i0 <- item items 0 ;;
  attr_name <- get_data i0 ;;
  value_ <- item items 1 ;;
  ret (VTuple attr_name value_).

Definition optimize_def (items : list value) : py value :=
  attrs <- dict items ;;
  let optimization := Ast.new_Optimization (get attrs "objective")
                        (get attrs "variables")
                        (get_or attrs "algorithm" (VStr "gradient")) in
  m <- get_model ;;
  _ <- set_model (mkModel (m_site m) (m_equipment m) (m_layouts m)
                    (m_simulation m) optimization) ;;
  ret optimization.

Definition statement (items : list value) : py value := item items 0.

Definition start_ (items : list value) : py value :=
  m <- get_model ;;
  ret (model_value m).

(** *** The traversal of [lark.Transformer]

    [transform] visits the tree bottom-up and left to right.  A token is
    passed to the method named after its terminal, when there is one; a
    branch is replaced by the result of the method named after its rule,
    called on the results of its children, and stays a tree when there is no
    such method.  An exception raised in a callback leaves [transform] as a
    [VisitError]. *)

Inductive error :=
  | UnexpectedInput
  | VisitError (rule_or_terminal : string) (orig_exc : exn).

Definition visit (A : Type) : Type := model_state -> error + (A * model_state).

Definition call (where_ : string) (c : py value) : visit value :=
  fun m => match c m with
           | inl e => inl (VisitError where_ e)
           | inr r => inr r
           end.

Definition call_userfunc (r : Lark.rule) (children : list value) : py value :=
  match r with
  | Lark.string_ => inline1 string_ children
  | Lark.coordinate => inline4 coordinate children
  | Lark.quantity => inline2 quantity children
  | Lark.angle => inline1 angle children
  | Lark.duration => inline2 duration children
  | Lark.site_attr => site_attr children
  | Lark.site_def => site_def children
  | Lark.equipment_type => inline1 equipment_type children
  | Lark.equipment_spec => equipment_spec children
  | Lark.spec_block => spec_block children
  | Lark.equipment_item => equipment_item children
  | Lark.equipment_section => equipment_section children
  | Lark.equipment_ref => equipment_ref_inline children
  | Lark.tracking_mode => inline1 tracking_mode children
  | Lark.layout_attr => layout_attr children
  | Lark.layout_def => layout_def children
  | Lark.weather_source => weather_source children
  | Lark.output_list => output_list children
  | Lark.simulate_attr => simulate_attr children
  | Lark.simulate_def => simulate_def children
  | Lark.objective_expr => inline2 objective_expr children
  | Lark.variable_list => variable_list children
  | Lark.optimize_attr => optimize_attr children
  | Lark.optimize_def => optimize_def children
  | Lark.statement => statement children
  | Lark.start => start_ children
  | Lark.direction_ns | Lark.direction_ew | Lark.unit_ | Lark.orientation =>
      ret (VTree r children)
  end.

Definition call_userfunc_token (type : Lark.terminal) (text : string)
  : visit value :=
  match type with
  | Lark.NUMBER => call "NUMBER" (NUMBER (VStr text))
  | Lark.NAME => call "NAME" (NAME (VStr text))
  | Lark.ESCAPED_STRING => fun m => inr (VStr text, m)
  end.

Fixpoint transform_tree (t : Lark.tree) : visit value :=
  match t with
  | Lark.Token type text => call_userfunc_token type text
  | Lark.Tree r children =>
      fun m =>
        match
          (fix transform_children (ts : list Lark.tree) : visit (list value) :=
             fun m =>
               match ts with
               | [] => inr ([], m)
               | c :: ts' =>
                   match transform_tree c m with
                   | inl e => inl e
                   | inr (v, m1) =>
                       match transform_children ts' m1 with
                       | inl e => inl e
                       | inr (vs, m2) => inr (v :: vs, m2)
                       end
                   end
               end) children m
        with
        | inl e => inl e
        | inr (vs, m') => call (Lark.rule_name r) (call_userfunc r vs) m'
        end
  end.

(** The results of the children of a branch, left to right. *)
Fixpoint transform_children (ts : list Lark.tree) : visit (list value) :=
  fun m =>
    match ts with
    | [] => inr ([], m)
    | c :: ts' =>
        match transform_tree c m with
        | inl e => inl e
        | inr (v, m1) =>
            match transform_children ts' m1 with
            | inl e => inl e
            | inr (vs, m2) => inr (v :: vs, m2)
            end
        end
    end.

(** [RenewDSLTransformer().transform(tree)] *)
Definition transform (t : Lark.tree) : error + value :=
  match transform_tree t init_model with
  | inl e => inl e
  | inr (v, _) => inr v
  end.

(** Some callback raises when [t] is transformed from the model [m]. *)
Definition fails (m : model_state) (t : Lark.tree) : Prop :=
  exists e, transform_tree t m = inl e.

End Callbacks.

(** *** Notions used in the statements *)

(** The items that the [*_attr] and [equipment_spec] callbacks are written
    to return: pairs of an attribute name and a value. *)
Definition attr_items (kvs : list (string * value)) : list value :=
  List.map (fun kv => VTuple (VStr kv.1) kv.2) kvs.

(** The mapping that [dict] builds from such items. *)
Definition dict_of (d : gmap string value) (kvs : list (string * value))
  : gmap string value :=
  List.fold_left (fun d kv => <[kv.1 := kv.2]> d) kvs d.

(** An [Optimization] whose [constraints] is the empty list. *)
Definition without_constraints (optimization : value) : Prop :=
  exists objective variables algorithm,
    optimization = Optimization objective variables (VList []) algorithm.

(** The tree holds an [optimize] block: a branch of the rule
    [optimize_def], at any depth. *)
Definition is_optimize_def (r : Lark.rule) : bool :=
  match r with
  | Lark.optimize_def => true
  | _ => false
  end.

Fixpoint has_optimize_block (t : Lark.tree) : bool :=
  match t with
  | Lark.Token _ _ => false
  | Lark.Tree r children =>
      is_optimize_def r || List.existsb has_optimize_block children
  end.

(** A computation that reads the model at most. *)
Definition pure {A} (c : py A) : Prop :=
  forall m a m', c m = inr (a, m') -> m' = m.

(** The four rules of attribute lines. *)
Definition is_attr (r : Lark.rule) : Prop :=
  r = Lark.site_attr \/ r = Lark.layout_attr \/ r = Lark.simulate_attr
  \/ r = Lark.optimize_attr.

End Transformer.

(** ** [parse]

    The LALR parser of Lark is outside the repository: it is a parameter,
    [None] standing for the [UnexpectedInput] exception that it raises on a
    text that [GRAMMAR] does not derive. *)

Section Parse.

Variable repr : value -> string.
Variable lark_parse : string -> option Lark.tree.

Definition parse (dsl_text : string) : Transformer.error + value :=
  let processed_text := IndentPreprocessor.process dsl_text in
  match lark_parse processed_text with
  | None => inl Transformer.UnexpectedInput
  | Some tree => Transformer.transform repr tree
  end.

End Parse.

(** ** The documents of the specification's scenarios *)

Module Scenario.

Definition quoted (s : string) : string :=
  String "034"%char s ++ String "034"%char EmptyString.

Definition degree : string := Grammar.degree_sign.

(** The floats 10.0, 20.0 and 500.0. *)
Definition ten : PyFloat.float := PyFloat.round_decimal 10 0.
Definition twenty : PyFloat.float := PyFloat.round_decimal 20 0.
Definition five_hundred : PyFloat.float := PyFloat.round_decimal 500 0.

(** Scenario A *)
Definition text_A : string :=
  PyStr.join_nl
    ["site " ++ quoted "Solar One" ++ ":";
     "    location: 10.0" ++ degree ++ "N, 20.0" ++ degree ++ "E"].

Definition derivation_A : Grammar.start_d :=
  Grammar.mk_start
    (Grammar.st_site (quoted "Solar One")
       (Grammar.sa_location
          (Grammar.mk_coordinate "10.0" Grammar.dir_N "20.0" Grammar.dir_E))
       [])
    [].

(** Scenario B *)
Definition text_B : string :=
  PyStr.join_nl
    ["equipment:";
     "    panel " ++ quoted "P1" ++ ":";
     "        capacity: 400kW";
     "        capacity: 500kW"].

Definition specs_B : list Grammar.equipment_spec_d :=
  [Grammar.mk_spec "capacity"
     (Grammar.sv_quantity (Grammar.mk_quantity "400" Grammar.u_kW));
   Grammar.mk_spec "capacity"
     (Grammar.sv_quantity (Grammar.mk_quantity "500" Grammar.u_kW))].

Definition derivation_B : Grammar.start_d :=
  Grammar.mk_start
    (Grammar.st_equipment
       (Grammar.mk_item Grammar.e_panel (quoted "P1")
          (Some (Grammar.mk_spec "capacity"
                   (Grammar.sv_quantity
                      (Grammar.mk_quantity "400" Grammar.u_kW)),
                 [Grammar.mk_spec "capacity"
                    (Grammar.sv_quantity
                       (Grammar.mk_quantity "500" Grammar.u_kW))])))
       [])
    [].

(** Scenario C *)
Definition text_C : string :=
  PyStr.join_nl
    ["layout " ++ quoted "L1" ++ ":";
     "    panels: P1 * 200";
     "    tracking: fixed"].

Definition panels_C : Grammar.equipment_ref_d :=
  Grammar.mk_ref "P1" (Some "200").

Definition derivation_C : Grammar.start_d :=
  Grammar.mk_start
    (Grammar.st_layout (quoted "L1")
       (Grammar.la_panels panels_C)
       [Grammar.la_tracking Grammar.t_fixed])
    [].

(** Scenario D: a [layout] block with an attribute keyword that is not
    one of the six of the grammar. *)
Definition text_D : string :=
  PyStr.join_nl
    ["layout " ++ quoted "L1" ++ ":";
     "    panels: P1 * 200";
     "    turbines: T1"].

(** Two orders of the same two attributes of a block. *)
Definition attrs_area_terrain : list (string * value) :=
  [("area", Quantity (VFloat five_hundred) (VStr "m"));
   ("terrain", VStr "flat")].

Definition attrs_terrain_area : list (string * value) :=
  [("terrain", VStr "flat");
   ("area", Quantity (VFloat five_hundred) (VStr "m"))].

(** A block nested in a block, the shape of an [equipment] item with
    specs. *)
Definition text_nested : string :=
  PyStr.join_nl ["a:"; "  b:"; "    c"].

(** The layout block of Scenario C with its two attribute lines in the
    other order. *)
Definition text_C_swapped : string :=
  PyStr.join_nl
    ["layout " ++ quoted "L1" ++ ":";
     "    tracking: fixed";
     "    panels: P1 * 200"].

Definition derivation_C_swapped : Grammar.start_d :=
  Grammar.mk_start
    (Grammar.st_layout (quoted "L1")
       (Grammar.la_tracking Grammar.t_fixed)
       [Grammar.la_panels panels_C])
    [].

(** A [site] block with two distinct attributes, in both orders. *)
Definition text_site_area_terrain : string :=
  PyStr.join_nl
    ["site " ++ quoted "s" ++ ":";
     "    area: 500m";
     "    terrain: " ++ quoted "flat"].

Definition text_site_terrain_area : string :=
  PyStr.join_nl
    ["site " ++ quoted "s" ++ ":";
     "    terrain: " ++ quoted "flat";
     "    area: 500m"].

Definition area_500m : Grammar.site_attr_d :=
  Grammar.sa_area (Grammar.mk_quantity "500" Grammar.u_m).

Definition terrain_flat : Grammar.site_attr_d :=
  Grammar.sa_terrain (quoted "flat").

Definition derivation_site_area_terrain : Grammar.start_d :=
  Grammar.mk_start (Grammar.st_site (quoted "s") area_500m [terrain_flat]) [].

Definition derivation_site_terrain_area : Grammar.start_d :=
  Grammar.mk_start (Grammar.st_site (quoted "s") terrain_flat [area_500m]) [].

(** A [simulate] block without an [outputs] attribute. *)
Definition text_simulate : string :=
  PyStr.join_nl
    ["simulate:";
     "    duration: 1year"].

Definition derivation_simulate : Grammar.start_d :=
  Grammar.mk_start
    (Grammar.st_simulate
       (Grammar.sim_duration (Grammar.mk_quantity "1" Grammar.u_year)) [])
    [].

(** A [layout] block whose panels have the multiplier zero. *)
Definition text_zero : string :=
  PyStr.join_nl
    ["layout " ++ quoted "L1" ++ ":";
     "    panels: P1 * 0"].

Definition panels_zero : Grammar.equipment_ref_d :=
  Grammar.mk_ref "P1" (Some "0").

Definition derivation_zero : Grammar.start_d :=
  Grammar.mk_start
    (Grammar.st_layout (quoted "L1") (Grammar.la_panels panels_zero) [])
    [].

(** A multiplier of 310 digits, a lexeme of [NUMBER] above every finite
    float. *)
Definition huge_number : string := "1" ++ PyStr.repeat_str "0" 309.

(** Trees on which the attribute callbacks do not raise: the first child
    of the attribute line is a branch, as it would be if the keyword were
    kept in the tree, and the second is the value. *)
Definition statement_optimize : Lark.tree :=
  Lark.Tree Lark.statement
    [Lark.Tree Lark.optimize_def
       [Lark.Tree Lark.optimize_attr
          [Lark.Tree Lark.unit_ [];
           Grammar.tree_of_string (quoted "genetic")]]].

Definition statement_simulate : Lark.tree :=
  Lark.Tree Lark.statement
    [Lark.Tree Lark.simulate_def
       [Lark.Tree Lark.simulate_attr
          [Lark.Tree Lark.unit_ [];
           Grammar.tree_of_string (quoted "1year")]]].

(** Lark on [GRAMMAR] as [Lexer] describes it: no text gets a tree. *)
Definition lark_rejects (text : string) : option Lark.tree := None.

End Scenario.

(** ** Further notions for the preprocessor *)

Module IndentProps.

Import PyStr IndentPreprocessor.

(** A line that the preprocessor has nothing to do with at the base level:
    empty, or starting with a character that is not white space. *)
Definition flat_line (line : string) : Prop :=
  line = EmptyString \/ starts_black line.

(** [' ' in s] *)
Fixpoint has_space (s : string) : bool :=
  match s with
  | EmptyString => false
  | String c s' => Ascii.eqb c " "%char || has_space s'
  end.

(** ['\n' in s] *)
Fixpoint has_newline (s : string) : bool :=
  match s with
  | EmptyString => false
  | String c s' => Ascii.eqb c "010"%char || has_newline s'
  end.

(** The shape of [indent_stack] at every point of [process]: the base level
    0 at the bottom and strictly increasing widths above it. *)
Definition stack_ok (st : list nat) : Prop :=
  (exists above, st = 0 :: above) /\ Sorted.Sorted lt st.

End IndentProps.

(** ** Further notions for the grammar *)

Module GrammarProps.

Import Grammar.

Definition is_indent (t : token) : bool :=
  match t with T_INDENT => true | _ => false end.

Definition is_dedent (t : token) : bool :=
  match t with T_DEDENT => true | _ => false end.

(** How many block-start markers a token sequence holds more than
    block-end markers. *)
Definition open_blocks (l : list token) : Z :=
  (Z.of_nat (List.length (List.filter is_indent l))
   - Z.of_nat (List.length (List.filter is_dedent l)))%Z.

End GrammarProps.

(** ** Further notions for the transformer *)

Module TransformerProps.

Import Transformer.

(** The value of a member of the enumeration [TrackingMode]. *)
Definition TrackingMode_value (t : TrackingMode) : string :=
  match t with
  | FIXED => "fixed"
  | SINGLE_AXIS => "single_axis"
  | DUAL_AXIS => "dual_axis"
  end.

(** What one callback may do to [self.model]. *)
Inductive state_change (m : model_state) : model_state -> Prop :=
  | unchanged : state_change m m
  | set_site name location area terrain irradiance elevation :
      state_change m
        (mkModel (Site name location area terrain irradiance elevation)
           (m_equipment m) (m_layouts m) (m_simulation m) (m_optimization m))
  | add_equipment type name specs :
      state_change m
        (mkModel (m_site m)
           (m_equipment m ++ [Equipment type name (VBool false) specs])%list
           (m_layouts m) (m_simulation m) (m_optimization m))
  | add_layout name panels inverters orientation tilt row_spacing tracking :
      state_change m
        (mkModel (m_site m) (m_equipment m)
           (m_layouts m ++
              [Layout name panels inverters VNone orientation tilt
                 row_spacing tracking VNone])%list
           (m_simulation m) (m_optimization m))
  | set_simulation weather duration timestep outputs :
      outputs <> VNone ->
      state_change m
        (mkModel (m_site m) (m_equipment m) (m_layouts m)
           (Simulation weather duration timestep outputs) (m_optimization m))
  | set_optimization objective variables algorithm :
      variables <> VNone ->
      state_change m
        (mkModel (m_site m) (m_equipment m) (m_layouts m) (m_simulation m)
           (Optimization objective variables (VList []) algorithm)).

(** An [Equipment] that is not marked as coming from a catalog. *)
Definition custom_equipment (e : value) : Prop :=
  exists type name specs, e = Equipment type name (VBool false) specs.

(** A [Layout] without turbines and without a count. *)
Definition plain_layout (l : value) : Prop :=
  exists name panels inverters orientation tilt row_spacing tracking,
    l = Layout name panels inverters VNone orientation tilt row_spacing
          tracking VNone.

(** The shape of the model at every point of the traversal. *)
Record well_shaped (m : model_state) : Prop := {
  ws_site :
    m_site m = VNone
    \/ exists name location area terrain irradiance elevation,
         m_site m = Site name location area terrain irradiance elevation;
  ws_equipment : List.Forall custom_equipment (m_equipment m);
  ws_layouts : List.Forall plain_layout (m_layouts m);
  ws_simulation :
    m_simulation m = VNone
    \/ exists weather duration timestep outputs,
         m_simulation m = Simulation weather duration timestep outputs
         /\ outputs <> VNone
}.

(** The model after the callback of rule [r] has returned [v]: the five
    section callbacks store the record that they return, in a slot of its
    own or at the end of a sequence; no other callback writes. *)
Definition store (r : Lark.rule) (v : value) (m : model_state) : model_state :=
  match r with
  | Lark.site_def =>
      mkModel v (m_equipment m) (m_layouts m) (m_simulation m)
        (m_optimization m)
  | Lark.equipment_item =>
      mkModel (m_site m) (m_equipment m ++ [v])%list (m_layouts m)
        (m_simulation m) (m_optimization m)
  | Lark.layout_def =>
      mkModel (m_site m) (m_equipment m) (m_layouts m ++ [v])%list
        (m_simulation m) (m_optimization m)
  | Lark.simulate_def =>
      mkModel (m_site m) (m_equipment m) (m_layouts m) v (m_optimization m)
  | Lark.optimize_def =>
      mkModel (m_site m) (m_equipment m) (m_layouts m) (m_simulation m) v
  | _ => m
  end.

(** The names that [site_def] and [layout_def] look up. *)
Definition site_fields : list string :=
  ["location"; "area"; "terrain"; "irradiance"; "elevation"].

Definition layout_fields : list string :=
  ["panels"; "inverters"; "orientation"; "tilt"; "row_spacing"; "tracking"].

End TransformerProps.

(** ** The string forms of [ast_nodes.py] *)

Module AstStr.

Section WithRepr.

(** The text of a float, as in [Transformer.py_str]. *)
Variable repr : value -> string.

(** [f"{v}"] *)
Definition fmt (v : value) : string :=
  match v with
  | VStr s => s
  | VInt n => NilZero.string_of_int (Z.to_int n)
  | VNone => "None"
  | VBool b => if b then "True" else "False"
  | _ => repr v
  end.

(** [v >= 0] for a number. *)
Definition ge_zero (v : value) : exn + bool :=
  match v with
  | VFloat S754_nan => inr false
  | VFloat (S754_zero _) => inr true
  | VFloat (S754_infinity s) => inr (negb s)
  | VFloat (S754_finite s _ _) => inr (negb s)
  | VInt n => inr (0 <=? n)%Z
  | VBool _ => inr true
  | _ => inl TypeError
  end.

(** [abs(v)] for a number. *)
Definition py_abs (v : value) : exn + value :=
  match v with
  | VFloat x => inr (VFloat (SFabs x))
  | VInt n => inr (VInt (Z.abs n))
  | VBool b => inr (VInt (if b then 1 else 0))
  | _ => inl TypeError
  end.

(** [Coordinate.__str__] *)
Definition Coordinate_str (latitude longitude : value) : exn + string :=
  match ge_zero latitude with
  | inl e => inl e
  | inr lat_ge =>
      let lat_dir := if lat_ge then "N" else "S" in
      match ge_zero longitude with
      | inl e => inl e
      | inr lon_ge =>
          let lon_dir := if lon_ge then "E" else "W" in
          match py_abs latitude, py_abs longitude with
          | inr a, inr b =>
              inr (fmt a ++ Grammar.degree_sign ++ lat_dir ++ ", "
                   ++ fmt b ++ Grammar.degree_sign ++ lon_dir)
          | inl e, _ => inl e
          | _, inl e => inl e
          end
      end
  end.

(** [EquipmentRef.__str__]; a method [__str__] that returns something else
    than a string makes [str] raise [TypeError]. *)
Definition EquipmentRef_str (name count : value) : exn + string :=
  if Transformer.truthy count
  then inr (fmt name ++ " * " ++ fmt count)
  else match name with
       | VStr s => inr s
       | _ => inl TypeError
       end.

End WithRepr.

End AstStr.

(** ** [SolarSimulator] ([src/simulation/solar_sim.py]) *)

Module SolarSimulator.

(** [_orientation_to_azimuth], on the values that the field
    [Layout.orientation : Optional[str]] is declared to hold. *)
Definition _orientation_to_azimuth (orientation : option string) : Z :=
  match orientation with
  | None => 180
  | Some s =>
      if String.eqb s "south" then 180
      else if String.eqb s "north" then 0
      else if String.eqb s "east" then 90
      else if String.eqb s "west" then 270
      else 180
  end.

(** [max(1, count // modules_per_string) if count else 50] of
    [create_system], with [modules_per_string = 20], on the values that the
    field [EquipmentRef.count : Optional[int]] is declared to hold. *)
Definition strings_per_inverter (count : option Z) : Z :=
  match count with
  | None => 50
  | Some c => if (c =? 0)%Z then 50 else Z.max 1 (c / 20)
  end.

End SolarSimulator.

(** * Properties of the indentation preprocessor *)

Module IndentFacts.

Import PyStr IndentPreprocessor.

Lemma replace_first_eq old new s :
  replace_first old new s =
  if String.prefix old s then new ++ drop (String.length old) s
  else match s with
       | EmptyString => EmptyString
       | String c s' => String c (replace_first old new s')
       end.
Proof. destruct s; reflexivity. Qed.

Lemma append_empty (s : string) : "" ++ s = s.
Proof. reflexivity. Qed.

Lemma append_String c (s t : string) : String c s ++ t = String c (s ++ t).
Proof. reflexivity. Qed.

Lemma spaces_S w : spaces (S w) = String " "%char (spaces w).
Proof. reflexivity. Qed.

Lemma lstrip_spaces w body :
  starts_black body -> lstrip (spaces w ++ body) = body.
Proof.
  intros Hb. induction w as [|w IH].
  - change (spaces 0) with EmptyString. rewrite append_empty.
    destruct body as [|c b]; [destruct Hb|].
    cbn [lstrip starts_black] in *. now rewrite Hb.
  - rewrite spaces_S, append_String. exact IH.
Qed.

Lemma length_spaces w body :
  String.length (spaces w ++ body) = w + String.length body.
Proof.
  induction w as [|w IH].
  - reflexivity.
  - rewrite spaces_S, append_String. cbn [String.length]. now rewrite IH.
Qed.

Lemma prefix_spaces w body : String.prefix (spaces w) (spaces w ++ body) = true.
Proof.
  induction w as [|w IH].
  - change (spaces 0) with EmptyString. rewrite append_empty. now destruct body.
  - rewrite spaces_S, append_String. exact IH.
Qed.

Lemma drop_spaces w body :
  drop (String.length (spaces w)) (spaces w ++ body) = body.
Proof.
  induction w as [|w IH].
  - reflexivity.
  - rewrite spaces_S, append_String. exact IH.
Qed.

Lemma indent_of_spaces w body :
  starts_black body -> indent_of (spaces w ++ body) = w.
Proof.
  intros Hb. unfold indent_of.
  rewrite (lstrip_spaces w body Hb), length_spaces. lia.
Qed.

Lemma strip_is_empty_spaces w body :
  starts_black body -> strip_is_empty (spaces w ++ body) = false.
Proof.
  intros Hb. unfold strip_is_empty. rewrite (lstrip_spaces w body Hb).
  destruct body; [destruct Hb | reflexivity].
Qed.

(** The line that opens a level is prefixed with as many block-start
    markers as there are levels open above the base once it is pushed. *)
Lemma step_push (s : state) (w : nat) (body : string) :
  starts_black body ->
  top (indent_stack s) < w ->
  step s (spaces w ++ body) =
  mkState
    (output s ++
       [(repeat_str INDENT (List.length (indent_stack s)) ++ body)%string])%list
    (indent_stack s ++ [w])%list.
Proof.
  intros Hb Hlt. unfold step.
  rewrite (strip_is_empty_spaces w body Hb), (indent_of_spaces w body Hb).
  apply Nat.ltb_lt in Hlt. rewrite Hlt. cbv zeta.
  rewrite replace_first_eq. fold (spaces w).
  rewrite prefix_spaces, drop_spaces.
  rewrite List.length_app. simpl List.length.
  replace (List.length (indent_stack s) + 1 - 1)
    with (List.length (indent_stack s)) by lia.
  reflexivity.
Qed.

Lemma dedent_loop_eq fuel w out st :
  dedent_loop (S fuel) w (mkState out st) =
  match st with
  | [] => mkState out st
  | _ :: _ =>
      if Nat.ltb w (top st)
      then dedent_loop fuel w
             (mkState (out ++ [DEDENT])%list (List.removelast st))
      else mkState out st
  end.
Proof. reflexivity. Qed.

(** The dedent loop pops exactly the levels greater than the width [w] of
    the line, whether or not [w] is a level that was pushed, and emits one
    block-end marker per pop. *)
Lemma dedent_loop_pops (w : nat) (base popped : list nat) :
  top base <= w ->
  Forall (fun x => w < x) popped ->
  forall out,
    dedent_loop (List.length (base ++ popped)) w (mkState out (base ++ popped)) =
    mkState (out ++ List.repeat DEDENT (List.length popped))%list base.
Proof.
  intros Hbase. induction popped as [|x p IH] using List.rev_ind; intros Hall out.
  - change (List.repeat DEDENT (List.length (@nil nat))) with (@nil string).
    rewrite !List.app_nil_r.
    destruct base as [|b base']; [reflexivity|].
    change (List.length (b :: base')) with (S (List.length base')).
    rewrite dedent_loop_eq.
    apply Nat.ltb_ge in Hbase. now rewrite Hbase.
  - apply Forall_app in Hall as [Hp Hx]. apply Forall_inv in Hx.
    rewrite List.app_assoc, List.length_app. cbn [List.length].
    rewrite Nat.add_1_r, dedent_loop_eq.
    destruct ((base ++ p) ++ [x])%list as [|y l] eqn:E.
    { now destruct (base ++ p)%list. }
    rewrite <- E. unfold top at 1. rewrite List.last_last.
    apply Nat.ltb_lt in Hx. rewrite Hx.
    rewrite List.removelast_last, (IH Hp).
    rewrite List.length_app. cbn [List.length].
    rewrite Nat.add_1_r. cbn [List.repeat].
    rewrite <- List.app_assoc. reflexivity.
Qed.

Lemma close_loop_eq fuel out st :
  close_loop (S fuel) (mkState out st) =
  if Nat.ltb 1 (List.length st)
  then close_loop fuel (mkState (out ++ [DEDENT])%list (List.removelast st))
  else mkState out st.
Proof. reflexivity. Qed.

(** After the last line, one block-end marker is emitted for every level
    still open above the base. *)
Lemma close_loop_pops (b : nat) (open : list nat) :
  forall out,
    close_loop (List.length (b :: open)) (mkState out (b :: open)) =
    mkState (out ++ List.repeat DEDENT (List.length open))%list [b].
Proof.
  induction open as [|x p IH] using List.rev_ind; intros out.
  - cbn [List.length List.repeat]. rewrite List.app_nil_r. reflexivity.
  - change (b :: p ++ [x])%list with ((b :: p) ++ [x])%list.
    rewrite List.length_app. cbn [List.length].
    rewrite Nat.add_1_r, close_loop_eq.
    rewrite List.length_app. cbn [List.length].
    replace (Nat.ltb 1 (S (List.length p) + 1)) with true
      by (symmetry; apply Nat.ltb_lt; lia).
    rewrite List.removelast_last.
    change (S (List.length p)) with (List.length (b :: p)).
    rewrite IH, List.length_app. cbn [List.length].
    rewrite Nat.add_1_r. cbn [List.repeat].
    rewrite <- List.app_assoc. reflexivity.
Qed.

(** C2, at a block nested in a block: the line that opens the second level
    is prefixed with two block-start markers, not one, while two block-end
    markers close the two levels. *)
Theorem process_nested_block :
  process Scenario.text_nested =
  join_nl ["a:"; "<INDENT>b:"; "<INDENT><INDENT>c"; "<DEDENT>"; "<DEDENT>"].
Proof. vm_compute. reflexivity. Qed.

(** C8 as stated fails: a line of three spaces is not passed through
    unchanged, the empty line is put out in its place. *)
Lemma whitespace_line_not_unchanged :
  output (step init "   ") <> (output init ++ ["   "])%list.
Proof. vm_compute. discriminate. Qed.

(** C8, amended: a blank or whitespace-only line adds exactly one line to
    the output, the empty line, and leaves the indentation stack as it
    is. *)
Theorem step_blank_line (s : state) (line : string) :
  strip_is_empty line = true ->
  step s line = mkState (output s ++ [""])%list (indent_stack s).
Proof. intros H. unfold step. now rewrite H. Qed.

Lemma step_blank_line_witness :
  strip_is_empty "   " = true /\
  step init "   " = mkState (output init ++ [""])%list (indent_stack init).
Proof. split; [reflexivity | apply step_blank_line; reflexivity]. Defined.

End IndentFacts.

(** * [float] on the lexemes of [NUMBER] *)

Module PyFloatFacts.

Import PyFloat.

Lemma read_digit_run_string s : forall acc count,
  read_digit_run acc count (list_ascii_of_string s)
  = let '(n, c, rest) := read_digits acc count s in
    (n, c, list_ascii_of_string rest).
Proof.
  induction s as [|c s IH]; intros acc count;
    cbn [list_ascii_of_string read_digits read_digit_run]; [reflexivity|].
  destruct (digit_of c); [apply IH | reflexivity].
Qed.

(** A character of a number: a digit or the point. *)
Lemma number_char (c : ascii) :
  is_digit c = true \/ c = "."%char ->
  is_number_space c = false /\ is_underscore c = false.
Proof.
  intros [H| ->]; [|split; reflexivity].
  destruct c as [[] [] [] [] [] [] [] []]; try discriminate H;
    split; reflexivity.
Qed.

Lemma digit_char (c : ascii) :
  is_digit c = true ->
  Ascii.eqb c "-"%char = false /\ Ascii.eqb c "+"%char = false
  /\ Ascii.eqb (lower c) "i"%char = false
  /\ Ascii.eqb (lower c) "n"%char = false.
Proof.
  intros H.
  destruct c as [[] [] [] [] [] [] [] []]; try discriminate H;
    repeat split; reflexivity.
Qed.

(** The characters that [read_digits] reads are digits. *)
Lemma read_digits_chars s : forall acc count n c rest,
  read_digits acc count s = (n, c, rest) ->
  exists ds,
    list_ascii_of_string s = (ds ++ list_ascii_of_string rest)%list
    /\ List.Forall (fun x => is_digit x = true) ds
    /\ (count < c -> exists d ds', ds = d :: ds').
Proof.
  induction s as [|x s IH]; intros acc count n c rest H;
    cbn [read_digits] in H.
  - injection H as <- <- <-. exists []. repeat split; [constructor | lia].
  - destruct (digit_of x) as [d|] eqn:Ed.
    + destruct (IH _ _ _ _ _ H) as (ds & E & Hd & _).
      exists (x :: ds). cbn [list_ascii_of_string List.app]. rewrite E.
      repeat split.
      * constructor; [unfold is_digit; now rewrite Ed | exact Hd].
      * intros _. now exists x, ds.
    + injection H as <- <- <-. exists []. repeat split; [constructor | lia].
Qed.

Lemma lstrip_space_id (cs : list ascii) :
  match cs with
  | [] => True
  | c :: _ => is_number_space c = false
  end ->
  lstrip_space cs = cs.
Proof. destruct cs as [|c cs]; [reflexivity|]. cbn. now intros ->. Qed.

Lemma strip_space_id (cs : list ascii) :
  List.Forall (fun c => is_number_space c = false) cs -> strip_space cs = cs.
Proof.
  intros H. unfold strip_space.
  rewrite (lstrip_space_id cs) by (destruct H; [exact I | assumption]).
  rewrite lstrip_space_id; [apply List.rev_involutive|].
  apply List.Forall_rev in H. destruct H; [exact I | assumption].
Qed.

Lemma underscores_ok_none (cs : list ascii) : forall b,
  List.Forall (fun c => is_underscore c = false) cs ->
  underscores_ok b cs = true.
Proof.
  induction cs as [|c cs IH]; intros b H; [reflexivity|].
  apply List.Forall_cons_iff in H as [Hc H].
  cbn [underscores_ok]. rewrite Hc. now apply IH.
Qed.

Lemma remove_underscores_none (cs : list ascii) :
  List.Forall (fun c => is_underscore c = false) cs ->
  remove_underscores cs = cs.
Proof.
  induction 1 as [|c cs Hc _ IH]; [reflexivity|].
  unfold remove_underscores in *. cbn [List.filter]. rewrite Hc. cbn.
  now rewrite IH.
Qed.

Lemma round_scaled_decimal (n : Z) (k : nat) :
  round_scaled false n (- Z.of_nat k) = round_decimal n k.
Proof.
  unfold round_scaled, round_decimal.
  destruct (0 <=? - Z.of_nat k)%Z eqn:E.
  - apply Z.leb_le in E. assert (k = 0%nat) as -> by lia.
    change (- Z.of_nat 0)%Z with 0%Z. rewrite Z.pow_0_r, Z.mul_1_r.
    reflexivity.
  - rewrite Z.opp_involutive. reflexivity.
Qed.

(** The word tests fail on a text that starts with a digit. *)
Lemma is_word_digit (d : ascii) (cs : list ascii) :
  is_digit d = true ->
  is_word "inf" (d :: cs) = false /\ is_word "infinity" (d :: cs) = false
  /\ is_word "nan" (d :: cs) = false.
Proof.
  intros H. destruct (digit_char d H) as (_ & _ & Hi & Hn).
  unfold is_word. cbn [List.map string_of_list_ascii String.eqb].
  now rewrite Hi, Hn.
Qed.

(** On a lexeme of [NUMBER], [float_of_str] reads what [float_of_number]
    reads. *)
Lemma float_of_str_number (s : string) (x : float) :
  float_of_number s = Some x -> float_of_str s = Some x.
Proof.
  unfold float_of_number.
  destruct (read_digits 0 0 s) as [[n1 c1] rest] eqn:E1.
  destruct c1 as [|c1]; [discriminate|].
  destruct (read_digits_chars _ _ _ _ _ _ E1) as (ds & Es & Hds & Hne).
  destruct Hne as (d & ds' & ->); [lia|].
  assert (Hd : is_digit d = true) by now apply List.Forall_cons_iff in Hds.
  pose proof (read_digit_run_string s 0 0) as R1. rewrite E1 in R1.
  intros H.
  (* the rest of the lexeme: nothing, or a point and digits *)
  assert (Hrest :
    (rest = EmptyString /\ x = round_decimal n1 0)
    \/ exists frac n2 c2,
         rest = String "."%char frac
         /\ read_digits n1 0 frac = (n2, c2, EmptyString)
         /\ x = round_decimal n2 c2).
  { destruct rest as [|c frac]; [left; split; [reflexivity | congruence]|].
    right. destruct (ascii_dec c "."%char) as [->|Hc].
    - destruct (read_digits n1 0 frac) as [[n2 c2] rest2] eqn:E2.
      destruct rest2; [|discriminate]. exists frac, n2, c2.
      repeat split; congruence.
    - exfalso.
      destruct c as [[] [] [] [] [] [] [] []]; try discriminate H.
      now apply Hc. }
  assert (Hchars : List.Forall (fun c => is_digit c = true \/ c = "."%char)
                     (list_ascii_of_string s)).
  { rewrite Es. apply List.Forall_app. split.
    - eapply List.Forall_impl; [|exact Hds]. cbn. tauto.
    - destruct Hrest as [[-> _]|(frac & n2 & c2 & -> & E2 & _)];
        [constructor|].
      cbn [list_ascii_of_string]. constructor; [now right|].
      destruct (read_digits_chars _ _ _ _ _ _ E2) as (ds2 & -> & Hds2 & _).
      cbn [list_ascii_of_string]. rewrite List.app_nil_r.
      eapply List.Forall_impl; [|exact Hds2]. cbn. tauto. }
  assert (Hsp : List.Forall (fun c => is_number_space c = false)
                  (list_ascii_of_string s)).
  { eapply List.Forall_impl; [|exact Hchars]. intros c Hc.
    now apply number_char. }
  assert (Hus : List.Forall (fun c => is_underscore c = false)
                  (list_ascii_of_string s)).
  { eapply List.Forall_impl; [|exact Hchars]. intros c Hc.
    now apply number_char. }
  destruct (digit_char d Hd) as (Hminus & Hplus & _).
  assert (Hword : is_word "inf" (list_ascii_of_string s) = false
                  /\ is_word "infinity" (list_ascii_of_string s) = false
                  /\ is_word "nan" (list_ascii_of_string s) = false).
  { rewrite Es. now apply is_word_digit. }
  destruct Hword as (W1 & W2 & W3).
  unfold float_of_str.
  rewrite (strip_space_id _ Hsp), (underscores_ok_none _ false Hus).
  cbn [negb]. rewrite (remove_underscores_none _ Hus).
  assert (Hsign : split_sign (list_ascii_of_string s)
                  = (false, list_ascii_of_string s)).
  { rewrite Es. cbn [List.app split_sign]. now rewrite Hminus, Hplus. }
  rewrite Hsign, R1.
  rewrite W1, W2, W3. cbn [orb].
  destruct Hrest as [[-> ->]|(frac & n2 & c2 & -> & E2 & ->)].
  - cbn [list_ascii_of_string]. rewrite Nat.add_0_r.
    now rewrite <- round_scaled_decimal.
  - cbn [list_ascii_of_string]. rewrite Ascii.eqb_refl.
    rewrite read_digit_run_string, E2. cbn [list_ascii_of_string Nat.add].
    now rewrite <- round_scaled_decimal.
Qed.

End PyFloatFacts.

(** * Properties of the transformer *)

Module TransformerFacts.

Import Transformer.

Lemma dict_acc_attr_items kvs : forall d m,
  dict_acc d (attr_items kvs) m = inr (dict_of d kvs, m).
Proof.
  induction kvs as [|[k v] kvs IH]; intros d m; [reflexivity|].
  cbn. apply IH.
Qed.

Lemma dict_attr_items kvs m :
  dict (attr_items kvs) m = inr (dict_of ∅ kvs, m).
Proof. apply dict_acc_attr_items. Qed.

Lemma dict_of_app d kvs kvs' :
  dict_of d (kvs ++ kvs') = dict_of (dict_of d kvs) kvs'.
Proof. apply List.fold_left_app. Qed.

Lemma dict_of_cons d k v kvs :
  dict_of d ((k, v) :: kvs) = dict_of (<[k := v]> d) kvs.
Proof. reflexivity. Qed.

Lemma dict_of_lookup_notin kvs : forall d k,
  k ∉ kvs.*1 -> dict_of d kvs !! k = d !! k.
Proof.
  induction kvs as [|[k' v'] kvs IH]; intros d k Hk; [reflexivity|].
  rewrite fmap_cons in Hk. apply not_elem_of_cons in Hk as [Hne Hk].
  rewrite dict_of_cons, (IH _ _ Hk). now apply lookup_insert_ne.
Qed.

(** Last one wins: the value of a key is that of its last pair. *)
Lemma dict_of_last_wins d before k v after :
  k ∉ after.*1 ->
  dict_of d (before ++ (k, v) :: after) !! k = Some v.
Proof.
  intros Hk. rewrite dict_of_app, dict_of_cons.
  rewrite (dict_of_lookup_notin _ _ _ Hk). apply lookup_insert_eq.
Qed.

(** With distinct keys the order of the pairs does not matter. *)
Lemma dict_of_perm kvs kvs' :
  kvs ≡ₚ kvs' -> NoDup kvs.*1 -> forall d, dict_of d kvs = dict_of d kvs'.
Proof.
  induction 1 as [|[k v] l l' Hp IH|[k1 v1] [k2 v2] l|l1 l2 l3 H12 IH12 H23 IH23];
    intros Hnd d.
  - reflexivity.
  - rewrite !dict_of_cons. apply IH.
    rewrite fmap_cons in Hnd. now apply NoDup_cons in Hnd as [_ Hnd].
  - rewrite !dict_of_cons. f_equal. apply insert_insert_ne.
    rewrite !fmap_cons in Hnd. apply NoDup_cons in Hnd as [Hnotin _].
    apply not_elem_of_cons in Hnotin as [Hne _]. cbn in Hne. congruence.
  - rewrite (IH12 Hnd). apply IH23. now rewrite <- H12.
Qed.

(** On the pairs of a name and a value that the attribute callbacks are
    written to return, the five block callbacks do not depend on the
    order: two orders of the same pairs with distinct names give the same
    record and leave the same model. *)
Theorem block_order_independent (name : value) (kvs kvs' : list (string * value))
    (m : model_state) :
  kvs ≡ₚ kvs' ->
  NoDup kvs.*1 ->
  site_def (name :: attr_items kvs) m = site_def (name :: attr_items kvs') m
  /\ layout_def (name :: attr_items kvs) m
     = layout_def (name :: attr_items kvs') m
  /\ simulate_def (attr_items kvs) m = simulate_def (attr_items kvs') m
  /\ optimize_def (attr_items kvs) m = optimize_def (attr_items kvs') m
  /\ spec_block (attr_items kvs) m = spec_block (attr_items kvs') m.
Proof.
  intros Hp Hnd.
  unfold site_def, layout_def, simulate_def, optimize_def, spec_block, bind.
  cbn [item List.nth_error List.tl ret].
  rewrite !dict_attr_items, (dict_of_perm kvs kvs' Hp Hnd ∅).
  repeat split; reflexivity.
Qed.

Lemma block_order_independent_witness :
  site_def (VStr "s" :: attr_items Scenario.attrs_area_terrain) init_model
  = site_def (VStr "s" :: attr_items Scenario.attrs_terrain_area) init_model
  /\ layout_def (VStr "s" :: attr_items Scenario.attrs_area_terrain) init_model
     = layout_def (VStr "s" :: attr_items Scenario.attrs_terrain_area)
         init_model
  /\ simulate_def (attr_items Scenario.attrs_area_terrain) init_model
     = simulate_def (attr_items Scenario.attrs_terrain_area) init_model
  /\ optimize_def (attr_items Scenario.attrs_area_terrain) init_model
     = optimize_def (attr_items Scenario.attrs_terrain_area) init_model
  /\ spec_block (attr_items Scenario.attrs_area_terrain) init_model
     = spec_block (attr_items Scenario.attrs_terrain_area) init_model.
Proof.
  apply block_order_independent.
  - apply perm_swap.
  - apply (bool_decide_unpack _). vm_compute. exact I.
Defined.

(** On pairs of a name and a value none of which is named [outputs],
    [simulate_def] returns and stores a [Simulation] with the two-element
    default list. *)
Theorem simulate_def_default_outputs (kvs : list (string * value))
    (m : model_state) :
  "outputs" ∉ kvs.*1 ->
  let attrs := dict_of ∅ kvs in
  let simulation :=
    Simulation (get attrs "weather") (get attrs "duration")
      (get attrs "timestep")
      (VList [VStr "generation"; VStr "capacity_factor"]) in
  simulate_def (attr_items kvs) m =
  inr (simulation,
       mkModel (m_site m) (m_equipment m) (m_layouts m) simulation
         (m_optimization m)).
Proof.
  intros Hk attrs simulation. unfold simulate_def, bind.
  rewrite dict_attr_items. fold attrs.
  assert (Hout : get attrs "outputs" = VNone).
  { unfold get, attrs. rewrite (dict_of_lookup_notin _ _ _ Hk).
    now rewrite lookup_empty. }
  rewrite Hout. reflexivity.
Qed.

Lemma simulate_def_default_outputs_witness :
  exists w d t,
    simulate_def (attr_items [("duration", VStr "1year")]) init_model =
    inr (Simulation w d t (VList [VStr "generation"; VStr "capacity_factor"]),
         mkModel VNone [] []
           (Simulation w d t
              (VList [VStr "generation"; VStr "capacity_factor"]))
           VNone).
Proof.
  eexists _, _, _.
  apply (simulate_def_default_outputs [("duration", VStr "1year")] init_model).
  apply (bool_decide_unpack _). vm_compute. exact I.
Defined.

(** Whatever the attributes of an [optimize] block, [optimize_def] returns,
    and stores in the model, an [Optimization] whose [constraints] is the
    empty list. *)
Lemma optimize_def_constraints_empty (kvs : list (string * value))
    (m : model_state) :
  exists objective variables algorithm,
    let optimization :=
      Optimization objective variables (VList []) algorithm in
    optimize_def (attr_items kvs) m =
    inr (optimization,
         mkModel (m_site m) (m_equipment m) (m_layouts m) (m_simulation m)
           optimization).
Proof.
  unfold optimize_def, bind. rewrite dict_attr_items.
  eexists _, _, _. reflexivity.
Qed.

End TransformerFacts.

(** * The transformer on the trees that Lark builds *)

Module TreeFacts.

Import Transformer.

Section WithRepr.

Variable repr : value -> string.

Lemma transform_tree_Tree r children m :
  transform_tree repr (Lark.Tree r children) m =
  match transform_children repr children m with
  | inl e => inl e
  | inr (vs, m') => call (Lark.rule_name r) (call_userfunc repr r vs) m'
  end.
Proof.
  cbn [transform_tree].
  match goal with
  | |- match ?a with _ => _ end = match ?b with _ => _ end =>
      replace a with b; [reflexivity|]
  end.
  revert m. induction children as [|c cs IH]; intros m; [reflexivity|].
  cbn [transform_children]. destruct (transform_tree repr c m) as [e|[v m1]];
    [reflexivity|].
  now rewrite IH.
Qed.

Lemma transform_children_cons c cs m :
  transform_children repr (c :: cs) m =
  match transform_tree repr c m with
  | inl e => inl e
  | inr (v, m1) =>
      match transform_children repr cs m1 with
      | inl e => inl e
      | inr (vs, m2) => inr (v :: vs, m2)
      end
  end.
Proof. reflexivity. Qed.

(** What [coordinate] does when the hemisphere letters reach it as
    strings: North and East keep the sign, South and West negate. *)
Lemma coordinate_on_letters (x y : PyFloat.float) (m : model_state) :
  coordinate (VFloat x) (VStr "N") (VFloat y) (VStr "E") m
  = inr (Coordinate (VFloat x) (VFloat y), m)
  /\ coordinate (VFloat x) (VStr "S") (VFloat y) (VStr "W") m
     = inr (Coordinate (VFloat (PyFloat.neg x)) (VFloat (PyFloat.neg y)), m).
Proof. split; reflexivity. Qed.

(** On the tree of a coordinate literal the letters are not there: a
    [direction_ns] or [direction_ew] branch has no children, is not equal to
    any string, and both magnitudes are negated whatever the letters. *)
Lemma transform_coordinate (c : Grammar.coordinate_d) (x y : PyFloat.float) :
  PyFloat.float_of_number (Grammar.lat c) = Some x ->
  PyFloat.float_of_number (Grammar.lon c) = Some y ->
  transform repr (Grammar.tree_of_coordinate c) =
  inr (Coordinate (VFloat (PyFloat.neg x)) (VFloat (PyFloat.neg y))).
Proof.
  intros Hx Hy. unfold transform, Grammar.tree_of_coordinate.
  apply PyFloatFacts.float_of_str_number in Hx, Hy.
  rewrite transform_tree_Tree. cbn -[PyFloat.float_of_str].
  unfold py_float, call. rewrite Hx. cbn -[PyFloat.float_of_str].
  rewrite Hy. reflexivity.
Qed.

(** C1: on the tree of a coordinate literal of magnitudes 10 and 20 the
    result is latitude -10.0 and longitude -20.0 for each of the four pairs
    of hemisphere letters, so [10°N] and [20°E] do not give +10.0 and +20.0;
    and the document of Scenario A gives no model, [site_attr] raises. *)
Theorem coordinate_hemisphere_lost :
  (forall ns ew,
     transform repr
       (Grammar.tree_of_coordinate (Grammar.mk_coordinate "10.0" ns "20.0" ew))
     = inr (Coordinate (VFloat (PyFloat.neg Scenario.ten))
              (VFloat (PyFloat.neg Scenario.twenty))))
  /\ PyFloat.neg Scenario.ten <> Scenario.ten
  /\ PyFloat.neg Scenario.twenty <> Scenario.twenty
  /\ transform repr (Grammar.tree_of_start Scenario.derivation_A)
     = inl (VisitError "site_attr" AttributeError).
Proof.
  split; [|split; [|split]].
  - intros ns ew. now apply transform_coordinate.
  - discriminate.
  - discriminate.
  - reflexivity.
Qed.

(** C3: the document of Scenario B gives no model.  The preprocessor puts
    two block-start markers before the first [capacity] line, where the
    grammar has one in [spec_block]; and on the tree of the document
    [equipment_type] is called without its argument.  The [spec_block]
    branch alone keeps the second value, 500.0, with the text of a tree as
    its unit. *)
Theorem scenario_B_not_parsed :
  IndentPreprocessor.process Scenario.text_B
  = PyStr.join_nl
      ["equipment:";
       "<INDENT>panel " ++ Scenario.quoted "P1" ++ ":";
       "<INDENT><INDENT>capacity: 400kW";
       "        capacity: 500kW";
       "<DEDENT>"; "<DEDENT>"]
  /\ transform repr (Grammar.tree_of_start Scenario.derivation_B)
     = inl (VisitError "equipment_type" TypeError)
  /\ transform repr
       (Lark.Tree Lark.spec_block
          (List.map Grammar.tree_of_spec Scenario.specs_B))
     = inr (VDict {[ "capacity" :=
                       Quantity (VFloat Scenario.five_hundred)
                         (VStr (repr (VTree Lark.unit_ []))) ]}).
Proof.
  split; [|split].
  - vm_compute. reflexivity.
  - reflexivity.
  - vm_compute. reflexivity.
Qed.

(** C7: the [equipment_ref] branch of [P1 * 200] gives
    [EquipmentRef("P1", 200)], but the attribute line that holds it makes
    [layout_attr] raise, and the document of Scenario C gives no model. *)
Theorem scenario_C_not_parsed :
  transform repr (Grammar.tree_of_ref Scenario.panels_C)
  = inr (EquipmentRef (VStr "P1") (VInt 200))
  /\ transform repr
       (Grammar.tree_of_layout_attr (Grammar.la_panels Scenario.panels_C))
     = inl (VisitError "layout_attr" AttributeError)
  /\ transform repr (Grammar.tree_of_start Scenario.derivation_C)
     = inl (VisitError "layout_attr" AttributeError).
Proof. repeat split. Qed.

(** *** Every tree of a derivation makes a callback raise *)

Lemma tree_fails r children m :
  (exists e, transform_children repr children m = inl e) ->
  fails repr m (Lark.Tree r children).
Proof.
  intros [e He]. exists e. now rewrite transform_tree_Tree, He.
Qed.

Lemma children_fail_first c cs m :
  fails repr m c -> exists e, transform_children repr (c :: cs) m = inl e.
Proof.
  intros [e He]. exists e. now rewrite transform_children_cons, He.
Qed.

Lemma children_fail_second c1 c2 cs m :
  (forall m', fails repr m' c2) ->
  exists e, transform_children repr (c1 :: c2 :: cs) m = inl e.
Proof.
  intros H. rewrite transform_children_cons.
  destruct (transform_tree repr c1 m) as [e|[v m1]]; [now exists e|].
  destruct (children_fail_first c2 cs m1 (H m1)) as [e He].
  exists e. now rewrite He.
Qed.

(** The keyword of an attribute line is an unnamed literal, so the tree of
    the line has one child, the value.  The callback reads [items[0].data]
    and [items[1]]: the first raises unless the value is a tree, the second
    raises since there is no second item. *)
Lemma attr_fails r child m : is_attr r -> fails repr m (Lark.Tree r [child]).
Proof.
  intros Hr. unfold fails. rewrite transform_tree_Tree, transform_children_cons.
  destruct (transform_tree repr child m) as [e|[v m1]]; [now exists e|].
  cbn [transform_children].
  destruct Hr as [-> | [-> | [-> | ->]]]; destruct v; cbn; eauto.
Qed.

Lemma statement_fails (st : Grammar.statement_d) (m : model_state) :
  fails repr m (Grammar.tree_of_statement st).
Proof.
  unfold Grammar.tree_of_statement.
  apply tree_fails, children_fail_first.
  destruct st as [name a attrs|i items|name a attrs|a attrs|a attrs];
    apply tree_fails.
  - cbn [List.map]. apply children_fail_second. intros m'.
    apply attr_fails. unfold is_attr. tauto.
  - cbn [List.map]. apply children_fail_first.
    unfold Grammar.tree_of_item. apply tree_fails, children_fail_first.
    exists (VisitError "equipment_type" TypeError). reflexivity.
  - cbn [List.map]. apply children_fail_second. intros m'.
    apply attr_fails. unfold is_attr. tauto.
  - cbn [List.map]. apply children_fail_first.
    apply attr_fails. unfold is_attr. tauto.
  - cbn [List.map]. apply children_fail_first.
    apply attr_fails. unfold is_attr. tauto.
Qed.

(** No derivation of the grammar is transformed into a model: on the tree
    of every document, some callback raises. *)
Lemma transform_derivation_fails (d : Grammar.start_d) :
  exists e, transform repr (Grammar.tree_of_start d) = inl e.
Proof.
  assert (H : fails repr init_model (Grammar.tree_of_start d)).
  { unfold Grammar.tree_of_start. destruct (Grammar.more d) as [|st sts].
    - apply statement_fails.
    - apply tree_fails. cbn [List.map]. apply children_fail_first.
      apply statement_fails. }
  destruct H as [e He]. exists e. unfold transform. now rewrite He.
Qed.

(** *** Documents of the specification that give no model *)

(** C5: a block with two distinct attributes gives no record, in either
    order of its lines.  For the [site] block with [area] and [terrain],
    [site_attr] raises on the first line in both orders; for the [layout]
    block of Scenario C, [layout_attr] raises with [panels] first and
    [tracking_mode] is called without its argument with [tracking] first.
    And whatever the attribute lines of a [site] or a [layout] block and
    their order, the document gives no model. *)
Theorem block_permutation_not_parsed :
  transform repr (Grammar.tree_of_start Scenario.derivation_site_area_terrain)
  = inl (VisitError "site_attr" AttributeError)
  /\ transform repr
       (Grammar.tree_of_start Scenario.derivation_site_terrain_area)
     = inl (VisitError "site_attr" AttributeError)
  /\ transform repr (Grammar.tree_of_start Scenario.derivation_C)
     = inl (VisitError "layout_attr" AttributeError)
  /\ transform repr (Grammar.tree_of_start Scenario.derivation_C_swapped)
     = inl (VisitError "tracking_mode" TypeError)
  /\ (forall name a attrs,
        exists e,
          transform repr
            (Grammar.tree_of_start
               (Grammar.mk_start (Grammar.st_site name a attrs) []))
          = inl e)
  /\ (forall name a attrs,
        exists e,
          transform repr
            (Grammar.tree_of_start
               (Grammar.mk_start (Grammar.st_layout name a attrs) []))
          = inl e).
Proof.
  repeat split; try reflexivity; intros name a attrs;
    apply transform_derivation_fails.
Qed.

(** C6: the document with a [simulate] block that has a [duration] and no
    [outputs] gives no model and no [Simulation]: [simulate_attr] raises on
    the one-child tree of the line.  So does every document with a
    [simulate] block, whatever its attribute lines. *)
Theorem simulate_without_outputs_not_parsed :
  transform repr (Grammar.tree_of_start Scenario.derivation_simulate)
  = inl (VisitError "simulate_attr" AttributeError)
  /\ (forall a attrs,
        exists e,
          transform repr
            (Grammar.tree_of_start
               (Grammar.mk_start (Grammar.st_simulate a attrs) []))
          = inl e).
Proof.
  split; [reflexivity|]. intros a attrs. apply transform_derivation_fails.
Qed.

(** C10: the [equipment_ref] branch of [P1 * 0] gives the count [None], as
    that of [P1] does, but the attribute line [panels: P1 * 0] makes
    [layout_attr] raise and its document gives no model; the same holds for
    every multiplier, since every [panels] line raises.  And a multiplier
    above every finite float is read as an infinity, of which [int] raises
    [OverflowError]. *)
Theorem layout_panels_zero_not_parsed :
  transform repr (Grammar.tree_of_ref Scenario.panels_zero)
  = inr (EquipmentRef (VStr "P1") VNone)
  /\ transform repr (Grammar.tree_of_ref (Grammar.mk_ref "P1" None))
     = inr (EquipmentRef (VStr "P1") VNone)
  /\ transform repr
       (Grammar.tree_of_layout_attr (Grammar.la_panels Scenario.panels_zero))
     = inl (VisitError "layout_attr" AttributeError)
  /\ transform repr (Grammar.tree_of_start Scenario.derivation_zero)
     = inl (VisitError "layout_attr" AttributeError)
  /\ (forall r : Grammar.equipment_ref_d,
        exists e,
          transform repr (Grammar.tree_of_layout_attr (Grammar.la_panels r))
          = inl e)
  /\ transform repr
       (Grammar.tree_of_ref
          (Grammar.mk_ref "P1" (Some Scenario.huge_number)))
     = inl (VisitError "equipment_ref" OverflowError).
Proof.
  split; [reflexivity|]. split; [reflexivity|]. split; [reflexivity|].
  split; [reflexivity|]. split; [|vm_compute; reflexivity].
  intros r.
  destruct (attr_fails Lark.layout_attr (Grammar.tree_of_ref r) init_model)
    as [e He]; [unfold is_attr; tauto|].
  exists e. unfold transform, Grammar.tree_of_layout_attr. now rewrite He.
Qed.

(** *** Callbacks that only read the model *)

Lemma bind_inv {A B} (c : py A) (k : A -> py B) m b m' :
  bind c k m = inr (b, m') ->
  exists a m1, c m = inr (a, m1) /\ k a m1 = inr (b, m').
Proof.
  unfold bind. destruct (c m) as [e|[a m1]]; [discriminate|].
  intros H. now exists a, m1.
Qed.

Lemma pure_ret {A} (a : A) : pure (ret a).
Proof. intros m a' m' [= _ <-]. reflexivity. Qed.

Lemma pure_raise {A} e : pure (@raise A e).
Proof. intros m a m' [=]. Qed.

Lemma pure_bind {A B} (c : py A) (k : A -> py B) :
  pure c -> (forall a, pure (k a)) -> pure (bind c k).
Proof.
  intros Hc Hk m b m' H. apply bind_inv in H as (a & m1 & H1 & H2).
  apply Hc in H1 as ->. now apply Hk in H2.
Qed.

Lemma pure_item items i : pure (item items i).
Proof.
  unfold item. destruct (List.nth_error items i);
    [apply pure_ret | apply pure_raise].
Qed.

Lemma pure_get_data v : pure (get_data v).
Proof. destruct v; first [apply pure_ret | apply pure_raise]. Qed.

Lemma pure_py_neg v : pure (py_neg v).
Proof. destruct v; first [apply pure_ret | apply pure_raise]. Qed.

Lemma pure_float_of_int n : pure (float_of_int n).
Proof.
  unfold float_of_int.
  destruct (binary_normalize 53 1024 n 0 false);
    first [apply pure_ret | apply pure_raise].
Qed.

Lemma pure_py_float v : pure (py_float v).
Proof.
  destruct v; try first [apply pure_ret | apply pure_raise
                        | apply pure_float_of_int].
  unfold py_float.
  destruct (PyFloat.float_of_str s); [apply pure_ret | apply pure_raise].
Qed.

Lemma pure_py_int v : pure (py_int v).
Proof.
  destruct v as [| | |x|s| | | | | | | | | | | | | | | |];
    try first [apply pure_ret | apply pure_raise].
  - destruct x; first [apply pure_ret | apply pure_raise].
  - unfold py_int. destruct (PyFloat.int_of_str s); [|apply pure_raise].
    destruct (Nat.ltb 4300 (PyFloat.digit_count s));
      [apply pure_raise | apply pure_ret].
Qed.

Lemma pure_as_pair i : pure (as_pair i).
Proof.
  destruct i as [| | | |s| | |l|d| | | | | | | | | | | |];
    try first [apply pure_ret | apply pure_raise].
  - destruct s as [|a [|b [|c s]]]; first [apply pure_ret | apply pure_raise].
  - destruct l as [|a [|b [|c l]]]; first [apply pure_ret | apply pure_raise].
  - cbn. destruct (Nat.eqb (size d) 2); apply pure_raise.
Qed.

Lemma pure_as_key k : pure (as_key k).
Proof. destruct k; first [apply pure_ret | apply pure_raise]. Qed.

Lemma pure_dict_acc items : forall d, pure (dict_acc d items).
Proof.
  induction items as [|i items IH]; intros d; [apply pure_ret|].
  cbn [dict_acc]. apply pure_bind; [apply pure_as_pair|]. intros kv.
  apply pure_bind; [apply pure_as_key|]. intros k. apply IH.
Qed.

Lemma pure_get_model : pure get_model.
Proof. intros m a m' [= _ <-]. reflexivity. Qed.

Lemma tree_induction (P : Lark.tree -> Prop) :
  (forall type text, P (Lark.Token type text)) ->
  (forall r children, List.Forall P children -> P (Lark.Tree r children)) ->
  forall t, P t.
Proof.
  intros Htoken Htree. fix IH 1. intros [r children|type text].
  - apply Htree. induction children as [|c cs IHcs]; constructor.
    + apply IH.
    + exact IHcs.
  - apply Htoken.
Qed.

End WithRepr.

End TreeFacts.

(** * The grammar of a [layout] block *)

Module GrammarFacts.

Import Grammar.

Ltac no_layout :=
  unfold kw_layout, block in *;
  cbn -[yield_quantity yield_strings yield_names List.concat List.map];
  repeat rewrite List.in_app_iff;
  cbn -[yield_quantity yield_strings yield_names List.concat List.map];
  intuition (try discriminate; try congruence).

Lemma layout_follow_absent l : ~ List.In kw_layout l -> layout_follow l.
Proof.
  intros Hn pre rest ->. exfalso. apply Hn.
  apply List.in_app_iff. right. now left.
Qed.

Lemma layout_follow_app a b :
  layout_follow a -> layout_follow b -> layout_follow (a ++ b).
Proof.
  intros Ha Hb pre rest E.
  apply List.app_eq_app in E as [l [[E1 E2]|[E1 E2]]].
  - destruct l as [|x l'].
    + rewrite List.app_nil_r in E1. cbn in E2. subst.
      apply (Hb [] rest). reflexivity.
    + cbn in E2. injection E2 as <- ->.
      destruct (Ha pre l' E1) as (name & a0 & attrs & rest' & ->).
      exists name, a0, attrs, (rest' ++ b)%list.
      cbn [List.app]. now rewrite <- List.app_assoc.
  - apply (Hb l rest). exact E2.
Qed.

Lemma layout_follow_concat ls :
  List.Forall layout_follow ls -> layout_follow (List.concat ls).
Proof.
  induction 1 as [|l ls Hl _ IH]; cbn.
  - apply layout_follow_absent. intros [].
  - now apply layout_follow_app.
Qed.

Lemma absent_concat {A} (f : A -> list token) (xs : list A) :
  (forall x, ~ List.In kw_layout (f x)) ->
  ~ List.In kw_layout (List.concat (List.map f xs)).
Proof.
  intros H Hin. apply List.in_concat in Hin as (l & Hl & Hin).
  apply List.in_map_iff in Hl as (x & <- & _). exact (H x Hin).
Qed.

Lemma absent_quantity q : ~ List.In kw_layout (yield_quantity q).
Proof.
  destruct q as [n []]; unfold kw_layout; cbn;
    intuition (try discriminate; try congruence).
Qed.

Lemma absent_strings xs : ~ List.In kw_layout (yield_strings xs).
Proof.
  induction xs as [|x xs IH]; unfold kw_layout in *; cbn;
    intuition (try discriminate; try congruence).
Qed.

Lemma absent_names xs : ~ List.In kw_layout (yield_names xs).
Proof.
  induction xs as [|x xs IH]; unfold kw_layout in *; cbn;
    intuition (try discriminate; try congruence).
Qed.

Lemma absent_site_attr a : ~ List.In kw_layout (yield_site_attr a).
Proof.
  destruct a as [[? [] ? []]|q|?|q|q];
    try (pose proof (absent_quantity q)); no_layout.
Qed.

Lemma absent_spec e : ~ List.In kw_layout (yield_spec e).
Proof.
  destruct e as [? [q|?|?]]; try (pose proof (absent_quantity q)); no_layout.
Qed.

Lemma absent_item i : ~ List.In kw_layout (yield_item i).
Proof.
  destruct i as [[] ? [[e es]|]];
    try (pose proof (absent_concat yield_spec (e :: es) absent_spec));
    no_layout.
Qed.

Lemma absent_layout_attr a : ~ List.In kw_layout (yield_layout_attr a).
Proof.
  destruct a as [[? []]|[? []]|[]|?|q|[]];
    try (pose proof (absent_quantity q)); no_layout.
Qed.

Lemma absent_simulate_attr a : ~ List.In kw_layout (yield_simulate_attr a).
Proof.
  destruct a as [? ? xs|q|q|? xs];
    try (pose proof (absent_quantity q));
    try (pose proof (absent_strings xs));
    try (pose proof (absent_names xs)); no_layout.
Qed.

Lemma absent_optimize_attr a : ~ List.In kw_layout (yield_optimize_attr a).
Proof.
  destruct a as [[] ?|? xs|?]; try (pose proof (absent_names xs)); no_layout.
Qed.

Lemma layout_attr_keyword_in a : List.In (layout_attr_keyword a) layout_keywords.
Proof. destruct a; cbn; tauto. Qed.

Lemma layout_follow_statement st : layout_follow (yield_statement st).
Proof.
  destruct st as [name a attrs|i items|name a attrs|a attrs|a attrs].
  - apply layout_follow_absent.
    pose proof (absent_concat yield_site_attr (a :: attrs) absent_site_attr).
    no_layout.
  - apply layout_follow_absent.
    pose proof (absent_concat yield_item (i :: items) absent_item).
    no_layout.
  - set (tail := T_STRING name ::
                  block (List.concat (List.map yield_layout_attr (a :: attrs)))).
    assert (Habs : ~ List.In kw_layout tail).
    { subst tail.
      pose proof (absent_concat yield_layout_attr (a :: attrs)
                    absent_layout_attr).
      no_layout. }
    intros pre rest E.
    change (yield_statement (st_layout name a attrs))
      with (kw_layout :: tail) in E.
    destruct pre as [|x pre'].
    + injection E as <-.
      exists name, a, attrs, []. subst tail.
      cbn [List.app]. now rewrite List.app_nil_r.
    + exfalso. injection E as _ E. apply Habs. rewrite E.
      apply List.in_app_iff. right. now left.
  - apply layout_follow_absent.
    pose proof (absent_concat yield_simulate_attr (a :: attrs)
                  absent_simulate_attr).
    no_layout.
  - apply layout_follow_absent.
    pose proof (absent_concat yield_optimize_attr (a :: attrs)
                  absent_optimize_attr).
    no_layout.
Qed.

(** The token sequence of every derivation has the property. *)
Lemma layout_follow_start d : layout_follow (yield_start d).
Proof.
  unfold yield_start. apply layout_follow_concat.
  apply List.Forall_forall. intros l Hl.
  apply List.in_map_iff in Hl as (st & <- & _).
  apply layout_follow_statement.
Qed.

Lemma split_at_first {A} (x : A) (b1 b2 r1 r2 : list A) :
  (b1 ++ x :: r1 = b2 ++ x :: r2)%list ->
  ~ List.In x b1 -> ~ List.In x b2 -> r1 = r2.
Proof.
  revert b2. induction b1 as [|y b1 IH]; intros [|z b2] E H1 H2.
  - now injection E.
  - injection E as -> _. exfalso. apply H2. now left.
  - injection E as -> _. exfalso. apply H1. now left.
  - injection E as _ E. apply (IH b2 E).
    + intros H. apply H1. now right.
    + intros H. apply H2. now right.
Qed.

(** An attribute line starts with its keyword and has one [_NL], at its
    end. *)
Lemma layout_attr_head a :
  exists tl, yield_layout_attr a = T (layout_attr_keyword a) :: tl.
Proof. eexists. reflexivity. Qed.

Lemma layout_attr_line a :
  exists line,
    yield_layout_attr a = (line ++ [T_NL])%list /\ ~ List.In T_NL line.
Proof.
  exists (T (layout_attr_keyword a) :: T ":" :: yield_layout_value a).
  split; [reflexivity|].
  destruct a as [[? []]|[? []]|[]|?|[? []]|[]]; cbn;
    intuition (try discriminate; try congruence).
Qed.

Lemma layout_attr_cancel a b (x y : list token) :
  (yield_layout_attr a ++ x = yield_layout_attr b ++ y)%list -> x = y.
Proof.
  destruct (layout_attr_line a) as (la & -> & Ha).
  destruct (layout_attr_line b) as (lb & -> & Hb).
  rewrite <- !List.app_assoc. cbn [List.app].
  intros E. exact (split_at_first _ _ _ _ _ E Ha Hb).
Qed.

(** After attribute lines of the grammar, a block of the grammar goes on
    with a keyword or ends: not with a foreign token. *)
Lemma attr_lines_then_foreign (attrs : list layout_attr_d) :
  forall (derived : list layout_attr_d) k rest tail,
    (List.concat (List.map yield_layout_attr attrs) ++ k :: rest
     = List.concat (List.map yield_layout_attr derived) ++ T_DEDENT :: tail)%list ->
    ~ foreign k.
Proof.
  induction attrs as [|b bs IH]; intros derived k rest tail E [Hd Hk].
  - destruct derived as [|d0 ds].
    + injection E as -> _. now apply Hd.
    + destruct (layout_attr_head d0) as (tl & Hy).
      cbn [List.map List.concat List.app] in E. rewrite Hy in E.
      injection E as -> _.
      exact (Hk _ (layout_attr_keyword_in d0) eq_refl).
  - destruct derived as [|d0 ds].
    + destruct (layout_attr_head b) as (tl & Hy).
      cbn [List.map List.concat List.app] in E. rewrite Hy in E.
      discriminate E.
    + cbn [List.map List.concat] in E. rewrite <- !List.app_assoc in E.
      apply layout_attr_cancel in E.
      apply (IH ds k rest tail E). now split.
Qed.

End GrammarFacts.

(** * Properties of [parse] *)

Module ParseFacts.

Import Grammar GrammarFacts.

(** No derivation has, in a [layout] block, a line that starts with a
    foreign token after attribute lines of the grammar. *)
Lemma no_foreign_layout_attr (d : start_d) :
  ~ foreign_layout_attr (yield_start d).
Proof.
  intros (pre & name & attrs & k & rest & Hd & Hk).
  destruct (layout_follow_start d pre _ Hd) as (n & a & derived & tail & E).
  unfold block in E. cbn [List.app] in E. injection E as _ E.
  rewrite <- List.app_assoc in E. cbn [List.app] in E.
  exact (attr_lines_then_foreign attrs (a :: derived) k rest tail E Hk).
Qed.

(** The lexer reads no [_NL] token: a line break is white space. *)
Lemma scans_no_NL text toks : Lexer.scans text toks -> ~ List.In T_NL toks.
Proof.
  induction 1 as [|c text toks Hc Hs IH|t lexeme text toks Ht Hw Hs IH].
  - intros [].
  - exact IH.
  - intros [->|Hin]; [|exact (IH Hin)].
    destruct Ht as [->| ->]; discriminate.
Qed.

Lemma statement_has_NL (st : statement_d) : List.In T_NL (yield_statement st).
Proof.
  destruct st; unfold yield_statement, block; cbn [List.In]; tauto.
Qed.

(** Every derivation reads an [_NL] token, the one after the colon of its
    first block. *)
Lemma start_has_NL (d : start_d) : List.In T_NL (yield_start d).
Proof.
  unfold yield_start. cbn [List.map List.concat].
  apply List.in_or_app. left. apply statement_has_NL.
Qed.

Section WithLark.

Variable repr : value -> string.

(** Lark's parser, and the tokens that its lexer reads from a text. *)
Variable lark_parse : string -> option Lark.tree.
Variable lark_tokens : string -> option (list token).

(** A tree is returned only for a text whose tokens the grammar derives,
    and it is the tree of that derivation. *)
Hypothesis lark_sound :
  forall s t,
    lark_parse s = Some t ->
    exists d, t = tree_of_start d /\ lark_tokens s = Some (yield_start d).

(** No text is parsed into a model: on the tree of every derivation a
    callback raises. *)
Lemma parse_never_returns (text : string) :
  exists e, parse repr lark_parse text = inl e.
Proof.
  unfold parse.
  destruct (lark_parse (IndentPreprocessor.process text)) as [t|] eqn:Ep.
  - destruct (lark_sound _ _ Ep) as (d & -> & _).
    apply TreeFacts.transform_derivation_fails.
  - now exists Transformer.UnexpectedInput.
Qed.

End WithLark.

Section WithLexer.

Variable repr : value -> string.

(** Lark's parser. *)
Variable lark_parse : string -> option Lark.tree.

(** A tree is returned only for a text from which the lexer reads the
    tokens of a derivation, and it is the tree of that derivation. *)
Hypothesis lark_lexes :
  forall s t,
    lark_parse s = Some t ->
    exists d, t = tree_of_start d /\ Lexer.scans s (yield_start d).

(** C4: the grammar has no [layout] block with a foreign attribute
    keyword, and [parse] raises Lark's syntax error on every text, hence on
    every text with such a block; no model is returned.  Every derivation
    needs an [_NL] token, and the lexer reads none. *)
Theorem foreign_layout_attr_rejected :
  (forall d, ~ foreign_layout_attr (yield_start d))
  /\ (forall text,
        parse repr lark_parse text = inl Transformer.UnexpectedInput).
Proof.
  split; [exact no_foreign_layout_attr|].
  intros text. unfold parse.
  destruct (lark_parse (IndentPreprocessor.process text)) as [t|] eqn:Ep;
    [exfalso | reflexivity].
  destruct (lark_lexes _ _ Ep) as (d & _ & Hd).
  exact (scans_no_NL _ _ Hd (start_has_NL d)).
Qed.

End WithLexer.

Lemma foreign_layout_attr_rejected_witness :
  parse (fun _ => "") Scenario.lark_rejects Scenario.text_D
  = inl Transformer.UnexpectedInput.
Proof.
  refine (proj2 (foreign_layout_attr_rejected (fun _ => "")
                   Scenario.lark_rejects _) Scenario.text_D).
  intros s t H. discriminate H.
Defined.

End ParseFacts.

(** * Further properties of the indentation preprocessor *)

Module IndentExtra.

Import PyStr IndentPreprocessor IndentProps.

Lemma top_cons_cons a b l : top (a :: b :: l) = top (b :: l).
Proof. reflexivity. Qed.

Lemma sorted_push (st : list nat) (w : nat) :
  Sorted.Sorted lt st -> (st = [] \/ top st < w) ->
  Sorted.Sorted lt (st ++ [w]).
Proof.
  induction st as [|a l IH]; intros Hs Ht.
  - repeat constructor.
  - apply Sorted.Sorted_inv in Hs as [Hl Ha].
    destruct Ht as [Ht|Ht]; [discriminate|].
    destruct l as [|b l'].
    + repeat constructor. exact Ht.
    + rewrite top_cons_cons in Ht.
      constructor.
      * apply IH; [exact Hl | now right].
      * constructor. now apply Sorted.HdRel_inv in Ha.
Qed.

Lemma sorted_removelast (st : list nat) :
  Sorted.Sorted lt st -> Sorted.Sorted lt (List.removelast st).
Proof.
  induction st as [|a l IH]; intros Hs; [constructor|].
  apply Sorted.Sorted_inv in Hs as [Hl Ha].
  destruct l as [|b l']; [constructor|].
  change (List.removelast (a :: b :: l'))
    with (a :: List.removelast (b :: l')).
  constructor; [now apply IH|].
  destruct l' as [|c l'']; [constructor|].
  constructor. now apply Sorted.HdRel_inv in Ha.
Qed.

Lemma stack_ok_push st w : stack_ok st -> top st < w -> stack_ok (st ++ [w]).
Proof.
  intros [[above ->] Hs] Hw. split.
  - now exists (above ++ [w])%list.
  - apply sorted_push; [exact Hs | now right].
Qed.

(** The bottom of the stack is never popped: no width is below 0. *)
Lemma stack_ok_dedent_loop fuel w : forall out st,
  stack_ok st ->
  stack_ok (indent_stack (dedent_loop fuel w (mkState out st))).
Proof.
  induction fuel as [|fuel IH]; intros out st Hok; [exact Hok|].
  rewrite IndentFacts.dedent_loop_eq.
  destruct st as [|a l]; [exact Hok|].
  destruct (Nat.ltb w (top (a :: l))) eqn:E; [|exact Hok].
  apply IH. destruct Hok as [[above Ha] Hs]. injection Ha as -> ->.
  destruct above as [|b l'].
  - apply Nat.ltb_lt in E. cbn in E. lia.
  - split.
    + now exists (List.removelast (b :: l')).
    + now apply sorted_removelast.
Qed.

Lemma stack_ok_step s line :
  stack_ok (indent_stack s) -> stack_ok (indent_stack (step s line)).
Proof.
  intros Hok. unfold step.
  destruct (strip_is_empty line); [exact Hok|]. cbv zeta.
  destruct (Nat.ltb (top (indent_stack s)) (indent_of line)) eqn:E1.
  - apply Nat.ltb_lt in E1. now apply stack_ok_push.
  - destruct (Nat.ltb (indent_of line) (top (indent_stack s))); [|exact Hok].
    cbn [indent_stack]. destruct s as [out st].
    now apply stack_ok_dedent_loop.
Qed.

Lemma stack_ok_run_lines lines : forall s,
  stack_ok (indent_stack s) -> stack_ok (indent_stack (run_lines s lines)).
Proof.
  induction lines as [|l ls IH]; intros s Hok; [exact Hok|].
  apply (IH (step s l)). now apply stack_ok_step.
Qed.

(** Throughout [process] the stack has the base level 0 at its bottom and
    strictly increasing widths above it, whatever the lines. *)
Theorem indent_stack_increasing (lines : list string) :
  stack_ok (indent_stack (run_lines init lines)).
Proof.
  apply stack_ok_run_lines. split; [now exists []|]. repeat constructor.
Qed.

(** When [process] returns, every level is closed: the stack is [[0]]
    again, and the output is that of the lines followed by one block-end
    marker per level that the last line left open. *)
Theorem process_closes_all_levels (text : string) :
  let s := run_lines init (split_nl text) in
  indent_stack (process_state text) = [0]
  /\ output (process_state text)
     = (output s
        ++ List.repeat DEDENT (List.length (indent_stack s) - 1))%list.
Proof.
  intros s. unfold process_state. fold s.
  destruct (stack_ok_run_lines (split_nl text) init) as [[above Hst] _].
  { split; [now exists []|]. repeat constructor. }
  fold s in Hst. destruct s as [out st]. cbn [indent_stack output] in *.
  subst st. rewrite IndentFacts.close_loop_pops.
  cbn [indent_stack output]. split; [reflexivity|].
  change (List.length (0 :: above)) with (S (List.length above)).
  now rewrite Nat.sub_succ, Nat.sub_0_r.
Qed.

Lemma append_assoc_String (a : string) c (b : string) :
  (a ++ String c EmptyString) ++ b = a ++ String c b.
Proof.
  induction a as [|x a IH]; [reflexivity|].
  rewrite !IndentFacts.append_String. now rewrite IH.
Qed.

Lemma split_nl_acc_cons s : forall acc,
  exists l ls, split_nl_acc acc s = l :: ls.
Proof.
  induction s as [|c s IH]; intros acc; cbn [split_nl_acc].
  - now exists acc, [].
  - destruct (Ascii.eqb c "010"); [now eexists _, _ | apply IH].
Qed.

(** ['\n'.join(s.split('\n'))] is [s]. *)
Lemma join_split_acc s : forall acc,
  join_nl (split_nl_acc acc s) = acc ++ s.
Proof.
  induction s as [|c s IH]; intros acc; cbn [split_nl_acc].
  - cbn. clear. induction acc as [|x a IHa]; [reflexivity|].
    rewrite IndentFacts.append_String. now rewrite <- IHa.
  - destruct (Ascii.eqb c "010") eqn:E.
    + apply Ascii.eqb_eq in E as ->.
      destruct (split_nl_acc_cons s EmptyString) as (l & ls & El).
      pose proof (IH EmptyString) as IH0. rewrite El in *.
      change (join_nl (acc :: l :: ls))
        with (acc ++ String "010" (join_nl (l :: ls))).
      rewrite IH0. reflexivity.
    + rewrite IH. apply append_assoc_String.
Qed.

Lemma step_flat (s : state) (line : string) :
  top (indent_stack s) = 0 -> flat_line line ->
  step s line = mkState (output s ++ [line])%list (indent_stack s).
Proof.
  intros Ht [->|Hb]; [reflexivity|].
  destruct line as [|c l]; [destruct Hb|]. cbn in Hb.
  unfold step, strip_is_empty, indent_of. cbn [lstrip]. rewrite Hb, Ht.
  rewrite Nat.sub_diag. reflexivity.
Qed.

Lemma run_lines_flat lines : forall out,
  List.Forall flat_line lines ->
  run_lines (mkState out [0]) lines = mkState (out ++ lines)%list [0].
Proof.
  induction lines as [|l ls IH]; intros out Hf.
  - now rewrite List.app_nil_r.
  - apply List.Forall_cons_iff in Hf as [Hl Hls].
    change (run_lines (mkState out [0]) (l :: ls))
      with (run_lines (step (mkState out [0]) l) ls).
    rewrite (step_flat (mkState out [0]) l (eq_refl 0) Hl).
    cbn [output indent_stack].
    rewrite (IH _ Hls), <- List.app_assoc. reflexivity.
Qed.

(** A text without indentation passes unchanged: when every line is empty
    or starts with a character that is not white space, [process] returns
    the text itself. *)
Theorem process_flat_text (text : string) :
  List.Forall flat_line (split_nl text) -> process text = text.
Proof.
  intros Hf. unfold process, process_state.
  change init with (mkState [] [0]).
  rewrite (run_lines_flat _ [] Hf). cbn [indent_stack List.length close_loop].
  cbn [Nat.ltb Nat.leb output List.app].
  apply (join_split_acc text EmptyString).
Qed.

Lemma process_flat_text_witness :
  process (join_nl ["site:"; ""; "layout:"]) = join_nl ["site:"; ""; "layout:"].
Proof.
  apply process_flat_text. cbn.
  repeat constructor; solve [now left | right; reflexivity].
Defined.

(** A dedent is lenient: on a line of width [w] below the top, the levels
    greater than [w] are popped, one block-end marker each on a line of its
    own, whether or not [w] is a level that was pushed; the line itself
    follows with its indentation as it is. *)
Theorem step_dedent (s : state) (line : string) (base popped : list nat) :
  strip_is_empty line = false ->
  indent_stack s = (base ++ popped)%list ->
  popped <> [] ->
  top base <= indent_of line ->
  List.Forall (fun x => indent_of line < x) popped ->
  step s line =
  mkState (output s ++ List.repeat DEDENT (List.length popped) ++ [line])%list
    base.
Proof.
  intros Hne Hst Hp Hbase Hall. unfold step. rewrite Hne. cbv zeta.
  assert (Htop : indent_of line < top (indent_stack s)).
  { rewrite Hst. destruct (List.exists_last Hp) as (p & x & ->).
    rewrite List.app_assoc. unfold top. rewrite List.last_last.
    apply List.Forall_app in Hall as [_ Hx]. now apply List.Forall_inv in Hx. }
  replace (Nat.ltb (top (indent_stack s)) (indent_of line)) with false
    by (symmetry; apply Nat.ltb_ge; lia).
  apply Nat.ltb_lt in Htop. rewrite Htop.
  destruct s as [out st]. cbn [indent_stack output] in *. subst st.
  rewrite (IndentFacts.dedent_loop_pops _ base popped Hbase Hall).
  cbn [output indent_stack]. now rewrite <- List.app_assoc.
Qed.

Lemma step_dedent_witness :
  step (mkState ["a:"; "<INDENT>b"] [0; 4]) "  c"
  = mkState ["a:"; "<INDENT>b"; "<DEDENT>"; "  c"] [0].
Proof.
  apply (step_dedent (mkState ["a:"; "<INDENT>b"] [0; 4]) "  c" [0] [4]).
  - reflexivity.
  - reflexivity.
  - discriminate.
  - vm_compute. lia.
  - repeat constructor.
Defined.

Lemma replace_first_no_space (new s : string) (w : nat) :
  has_space s = false ->
  replace_first (repeat_str " " (S w)) new s = s.
Proof.
  induction s as [|c s IH]; intros Hs; [reflexivity|].
  cbn [has_space] in Hs. apply orb_false_iff in Hs as [Hc Hs].
  rewrite IndentFacts.replace_first_eq.
  change (repeat_str " " (S w)) with (String " "%char (repeat_str " " w)) at 1.
  cbn [String.prefix].
  destruct (ascii_dec " " c) as [<-|Hne]; [discriminate Hc|].
  now rewrite (IH Hs).
Qed.

(** Indentation that is not made of spaces opens a level without a marker:
    a line that is deeper than the top and holds no space character is put
    out as it is, while its width is pushed. *)
Theorem step_push_without_spaces (s : state) (line : string) :
  strip_is_empty line = false ->
  top (indent_stack s) < indent_of line ->
  has_space line = false ->
  step s line =
  mkState (output s ++ [line])%list (indent_stack s ++ [indent_of line])%list.
Proof.
  intros Hne Hlt Hsp. unfold step. rewrite Hne. cbv zeta.
  apply Nat.ltb_lt in Hlt as Hlt'. rewrite Hlt'.
  destruct (indent_of line) as [|w] eqn:E; [lia|].
  now rewrite (replace_first_no_space _ _ w Hsp).
Qed.

Lemma step_push_without_spaces_witness :
  step init (String "009" "tilt:")
  = mkState [String "009" "tilt:"] [0; 1].
Proof.
  apply (step_push_without_spaces init (String "009" "tilt:")).
  - reflexivity.
  - vm_compute. lia.
  - reflexivity.
Defined.

Lemma split_nl_acc_line (l : string) : forall acc rest,
  has_newline l = false ->
  split_nl_acc acc (l ++ String "010" rest)
  = (acc ++ l) :: split_nl_acc EmptyString rest.
Proof.
  induction l as [|c l IH]; intros acc rest Hl.
  - rewrite IndentFacts.append_empty. cbn [split_nl_acc Ascii.eqb].
    cbn. f_equal. clear. induction acc as [|x a IHa]; [reflexivity|].
    rewrite IndentFacts.append_String. now rewrite <- IHa.
  - cbn [has_newline] in Hl. apply orb_false_iff in Hl as [Hc Hl].
    rewrite IndentFacts.append_String. cbn [split_nl_acc]. rewrite Hc.
    rewrite (IH _ _ Hl). now rewrite append_assoc_String.
Qed.

Lemma split_nl_acc_last (l : string) : forall acc,
  has_newline l = false -> split_nl_acc acc l = [acc ++ l].
Proof.
  induction l as [|c l IH]; intros acc Hl.
  - cbn. f_equal. clear. induction acc as [|x a IHa]; [reflexivity|].
    rewrite IndentFacts.append_String. now rewrite <- IHa.
  - cbn [has_newline] in Hl. apply orb_false_iff in Hl as [Hc Hl].
    cbn [split_nl_acc]. rewrite Hc, (IH _ Hl).
    now rewrite append_assoc_String.
Qed.

(** [('\n'.join(lines)).split('\n')] is [lines], for lines without a
    newline. *)
Lemma split_join (lines : list string) :
  lines <> [] ->
  List.Forall (fun l => has_newline l = false) lines ->
  split_nl (join_nl lines) = lines.
Proof.
  induction lines as [|l ls IH]; intros Hne Hall; [congruence|].
  apply List.Forall_cons_iff in Hall as [Hl Hls].
  destruct ls as [|l2 ls'].
  - cbn [join_nl]. unfold split_nl. now rewrite split_nl_acc_last.
  - change (join_nl (l :: l2 :: ls'))
      with (l ++ String "010" (join_nl (l2 :: ls'))).
    unfold split_nl. rewrite (split_nl_acc_line _ _ _ Hl).
    f_equal. apply IH; [discriminate | exact Hls].
Qed.

(** What a blank line holds does not matter: replacing a line of white
    space by the empty line, anywhere in a text, leaves the result of
    [process] as it is. *)
Theorem process_blank_line_content (before after : list string) (line : string) :
  List.Forall (fun l => has_newline l = false) (before ++ line :: after) ->
  strip_is_empty line = true ->
  process (join_nl (before ++ line :: after))
  = process (join_nl (before ++ EmptyString :: after)).
Proof.
  intros Hall Hb.
  assert (Hall' : List.Forall (fun l => has_newline l = false)
                    (before ++ EmptyString :: after)).
  { apply List.Forall_app in Hall as [H1 H2].
    apply List.Forall_cons_iff in H2 as [_ H2].
    apply List.Forall_app. split; [exact H1|]. now constructor. }
  unfold process, process_state.
  rewrite !split_join; try exact Hall; try exact Hall';
    try (now destruct before).
  unfold run_lines. rewrite !List.fold_left_app. cbn [List.fold_left].
  set (s := List.fold_left step before init).
  assert (Hstep : step s line = step s EmptyString).
  { unfold step. now rewrite Hb. }
  now rewrite Hstep.
Qed.

Lemma process_blank_line_content_witness :
  process (join_nl (["a:"] ++ "   " :: ["  b"]))
  = process (join_nl (["a:"] ++ EmptyString :: ["  b"])).
Proof.
  apply (process_blank_line_content ["a:"] ["  b"] "   ").
  - repeat constructor.
  - reflexivity.
Defined.

(** The witness of [IndentFacts.step_push]: a second-level line. *)
Lemma step_push_witness :
  step (mkState ["a:"; "<INDENT>b:"] [0; 2]) (spaces 4 ++ "c")
  = mkState ["a:"; "<INDENT>b:"; "<INDENT><INDENT>c"] [0; 2; 4].
Proof.
  apply (IndentFacts.step_push (mkState ["a:"; "<INDENT>b:"] [0; 2]) 4 "c").
  - reflexivity.
  - vm_compute. lia.
Defined.

End IndentExtra.

(** * Further properties of the transformer *)

Module TransformerExtra.

Import Transformer TransformerProps TransformerFacts TreeFacts.

Ltac reads_only :=
  repeat first
    [ apply pure_ret | apply pure_raise | apply pure_item
    | apply pure_get_data | apply pure_py_neg | apply pure_py_float
    | apply pure_py_int | apply pure_dict_acc | apply pure_get_model
    | apply pure_bind; [|intros ?]
    | match goal with
      | |- pure (if ?b then _ else _) => destruct b
      | |- pure (match ?x with _ => _ end) => destruct x
      end ].

Section WithRepr.

Variable repr : value -> string.

Lemma new_Simulation_outputs w d t o :
  exists o', Ast.new_Simulation w d t o = Simulation w d t o' /\ o' <> VNone.
Proof.
  unfold Ast.new_Simulation.
  destruct o; eexists; (split; [reflexivity | discriminate]).
Qed.

Lemma new_Optimization_shape o vs a :
  exists vs', Ast.new_Optimization o vs a = Optimization o vs' (VList []) a
              /\ vs' <> VNone.
Proof.
  unfold Ast.new_Optimization.
  destruct vs; eexists; (split; [reflexivity | discriminate]).
Qed.

(** What each callback does to the model: nothing, or one of the five
    updates of [state_change]. *)
Lemma call_userfunc_change r children m v m' :
  call_userfunc repr r children m = inr (v, m') -> state_change m m'.
Proof.
  intros H.
  assert (Hpure : forall c : py value, pure c -> c m = inr (v, m') ->
                  state_change m m').
  { intros c Hc Hr. rewrite (Hc _ _ _ Hr). constructor. }
  destruct r; cbn [call_userfunc] in H;
    try (revert H; apply Hpure;
         unfold inline1, inline2, inline4, equipment_ref_inline, string_,
           coordinate, quantity, angle, duration, site_attr, equipment_type,
           equipment_spec, spec_block, equipment_section, equipment_ref,
           tracking_mode, layout_attr, weather_source, output_list,
           simulate_attr, objective_expr, variable_list, optimize_attr,
           statement, start_, dict, Ast.new_EquipmentRef;
         reads_only; fail).
  - (* site_def *)
    unfold site_def in H.
    apply bind_inv in H as (a1 & m1 & H1 & H).
    apply pure_item in H1 as ->.
    apply bind_inv in H as (a2 & m2 & H2 & H).
    apply pure_dict_acc in H2 as ->.
    cbv [bind get_model set_model ret] in H. injection H as _ <-.
    constructor.
  - (* equipment_item *)
    unfold equipment_item in H.
    apply bind_inv in H as (a1 & m1 & H1 & H).
    apply pure_item in H1 as ->.
    apply bind_inv in H as (a2 & m2 & H2 & H).
    apply pure_item in H2 as ->.
    apply bind_inv in H as (a3 & m3 & H3 & H).
    assert (Hp : pure (if Nat.ltb 2 (List.length children)
                       then item children 2 else ret (VDict ∅)))
      by reads_only.
    apply Hp in H3 as ->.
    cbv [bind get_model set_model ret] in H. injection H as _ <-.
    unfold Ast.new_Equipment. constructor.
  - (* layout_def *)
    unfold layout_def in H.
    apply bind_inv in H as (a1 & m1 & H1 & H).
    apply pure_item in H1 as ->.
    apply bind_inv in H as (a2 & m2 & H2 & H).
    apply pure_dict_acc in H2 as ->.
    cbv [bind get_model set_model ret] in H. injection H as _ <-.
    unfold Ast.new_Layout. constructor.
  - (* simulate_def *)
    unfold simulate_def in H.
    apply bind_inv in H as (a2 & m2 & H2 & H).
    apply pure_dict_acc in H2 as ->.
    cbv [bind get_model set_model ret] in H. injection H as _ <-.
    destruct (new_Simulation_outputs (get a2 "weather") (get a2 "duration")
                (get a2 "timestep") (get a2 "outputs")) as (o' & -> & Ho).
    now constructor.
  - (* optimize_def *)
    unfold optimize_def in H.
    apply bind_inv in H as (a2 & m2 & H2 & H).
    apply pure_dict_acc in H2 as ->.
    cbv [bind get_model set_model ret] in H. injection H as _ <-.
    destruct (new_Optimization_shape (get a2 "objective")
                (get a2 "variables")
                (get_or a2 "algorithm" (VStr "gradient"))) as (vs' & -> & Hv).
    now constructor.
Qed.

(** A property of the model that every update keeps is kept by the
    traversal of any tree. *)
Lemma transform_tree_preserves (P : model_state -> Prop) :
  (forall m m', state_change m m' -> P m -> P m') ->
  forall t m v m', transform_tree repr t m = inr (v, m') -> P m -> P m'.
Proof.
  intros HP t.
  induction t as [type text|r children IH] using tree_induction;
    intros m v m' H Hm.
  - destruct type; cbn [transform_tree call_userfunc_token] in H.
    + unfold call in H.
      destruct (NUMBER (VStr text) m) as [e|[v1 m1]] eqn:E; [discriminate|].
      injection H as _ <-. now rewrite (pure_py_float _ _ _ _ E).
    + unfold call, NAME, ret in H. injection H as _ <-. exact Hm.
    + injection H as _ <-. exact Hm.
  - rewrite transform_tree_Tree in H.
    destruct (transform_children repr children m) as [e|[vs m1]] eqn:Ec;
      [discriminate|].
    assert (H1 : P m1).
    { clear H. revert m vs m1 Ec Hm.
      induction IH as [|c cs Hc _ IHcs]; intros m vs m1 Ec Hm.
      - injection Ec as _ <-. exact Hm.
      - rewrite transform_children_cons in Ec.
        destruct (transform_tree repr c m) as [e|[v0 m0]] eqn:E0;
          [discriminate|].
        destruct (transform_children repr cs m0) as [e|[vs' m2]] eqn:E1;
          [discriminate|].
        injection Ec as _ <-.
        exact (IHcs _ _ _ E1 (Hc _ _ _ E0 Hm)). }
    unfold call in H.
    destruct (call_userfunc repr r vs m1) as [e|[v1 m2]] eqn:Eu;
      [discriminate|].
    injection H as _ <-. exact (HP _ _ (call_userfunc_change _ _ _ _ _ Eu) H1).
Qed.

(** The sequences of the model only grow: whatever the tree, the equipment
    and the layouts that the model held before its traversal are still
    there after it, in the same order, followed by the new ones. *)
Theorem transform_tree_appends (t : Lark.tree) (m m' : model_state) (v : value) :
  transform_tree repr t m = inr (v, m') ->
  exists equipment layouts,
    m_equipment m' = (m_equipment m ++ equipment)%list
    /\ m_layouts m' = (m_layouts m ++ layouts)%list.
Proof.
  intros H.
  apply (transform_tree_preserves
           (fun x => exists equipment layouts,
                m_equipment x = (m_equipment m ++ equipment)%list
                /\ m_layouts x = (m_layouts m ++ layouts)%list)
           ) with (t := t) (m := m) (v := v); [|exact H|].
  - intros x x' Hc (es & ls & He & Hl).
    destruct Hc; cbn [m_equipment m_layouts]; try (now exists es, ls).
    + exists (es ++ [Equipment type name (VBool false) specs])%list, ls.
      now rewrite He, List.app_assoc.
    + eexists es, (ls ++ [_])%list.
      rewrite Hl, List.app_assoc. now split.
  - exists [], []. now rewrite !List.app_nil_r.
Qed.

Lemma well_shaped_change m m' :
  state_change m m' -> well_shaped m -> well_shaped m'.
Proof.
  intros Hc [Hs He Hl Hsim].
  destruct Hc; constructor; cbn [m_site m_equipment m_layouts m_simulation];
    try assumption.
  - right. now eexists _, _, _, _, _, _.
  - apply List.Forall_app. split; [exact He|].
    constructor; [|constructor]. now eexists _, _, _.
  - apply List.Forall_app. split; [exact Hl|].
    constructor; [|constructor]. now eexists _, _, _, _, _, _, _.
  - right. now eexists _, _, _, _.
Qed.

(** In every model that the transformer returns, whatever the tree: no
    equipment is marked as coming from a catalog, no layout has turbines or
    a count, and a simulation has outputs. *)
Theorem transform_model_well_shaped (children : list Lark.tree) (v : value) :
  transform repr (Lark.Tree Lark.start children) = inr v ->
  exists m, v = model_value m /\ well_shaped m.
Proof.
  unfold transform.
  destruct (transform_tree repr (Lark.Tree Lark.start children) init_model)
    as [e|[v' m']] eqn:E; [discriminate|].
  intros [= <-].
  assert (Hw : well_shaped m').
  { apply (transform_tree_preserves well_shaped well_shaped_change _ _ _ _ E).
    constructor; cbn; auto. }
  rewrite transform_tree_Tree in E.
  destruct (transform_children repr children init_model) as [e|[vs m1]];
    [discriminate|].
  cbv [call call_userfunc start_ bind get_model ret] in E.
  injection E as <- <-. now exists m1.
Qed.

End WithRepr.

Lemma transform_tree_appends_witness :
  exists equipment layouts,
    [Equipment (VStr "panel") (VStr "P1") (VBool false) (VDict ∅)]
    = ([] ++ equipment)%list
    /\ @nil value = ([] ++ layouts)%list.
Proof.
  apply (transform_tree_appends (fun _ => "")
           (Lark.Tree Lark.equipment_item
              [Lark.Token Lark.NAME "panel"; Lark.Token Lark.NAME "P1"])
           init_model
           (mkModel VNone
              [Equipment (VStr "panel") (VStr "P1") (VBool false) (VDict ∅)]
              [] VNone VNone)
           (Equipment (VStr "panel") (VStr "P1") (VBool false) (VDict ∅))).
  reflexivity.
Defined.

Lemma transform_model_well_shaped_witness :
  exists m,
    Model VNone [] []
      (Simulation VNone VNone VNone
         (VList [VStr "generation"; VStr "capacity_factor"]))
      VNone
    = model_value m /\ well_shaped m.
Proof.
  apply (transform_model_well_shaped (fun _ => "")
           [Scenario.statement_simulate]).
  reflexivity.
Defined.

Section Callbacks.

Variable repr : value -> string.

(** One channel is enough: whatever a callback returns, the model after it
    is the model before it with the returned record stored, in the slot of
    its section (replacing what the slot held) or at the end of the
    sequence of its section; the callbacks of the other rules leave the
    model as it is. *)
Theorem callback_stores_its_result r children m v m' :
  call_userfunc repr r children m = inr (v, m') -> m' = store r v m.
Proof.
  intros H.
  assert (Hpure : forall c : py value, pure c -> c m = inr (v, m') -> m' = m).
  { intros c Hc Hr. exact (Hc _ _ _ Hr). }
  destruct r; cbn [call_userfunc store] in *;
    try (revert H; apply Hpure;
         unfold inline1, inline2, inline4, equipment_ref_inline, string_,
           coordinate, quantity, angle, duration, site_attr, equipment_type,
           equipment_spec, spec_block, equipment_section, equipment_ref,
           tracking_mode, layout_attr, weather_source, output_list,
           simulate_attr, objective_expr, variable_list, optimize_attr,
           statement, start_, dict, Ast.new_EquipmentRef;
         reads_only; fail).
  - unfold site_def in H.
    apply bind_inv in H as (a1 & m1 & H1 & H).
    apply pure_item in H1 as ->.
    apply bind_inv in H as (a2 & m2 & H2 & H).
    apply pure_dict_acc in H2 as ->.
    cbv [bind get_model set_model ret] in H. now injection H as <- <-.
  - unfold equipment_item in H.
    apply bind_inv in H as (a1 & m1 & H1 & H).
    apply pure_item in H1 as ->.
    apply bind_inv in H as (a2 & m2 & H2 & H).
    apply pure_item in H2 as ->.
    apply bind_inv in H as (a3 & m3 & H3 & H).
    assert (Hp : pure (if Nat.ltb 2 (List.length children)
                       then item children 2 else ret (VDict ∅)))
      by reads_only.
    apply Hp in H3 as ->.
    cbv [bind get_model set_model ret] in H. now injection H as <- <-.
  - unfold layout_def in H.
    apply bind_inv in H as (a1 & m1 & H1 & H).
    apply pure_item in H1 as ->.
    apply bind_inv in H as (a2 & m2 & H2 & H).
    apply pure_dict_acc in H2 as ->.
    cbv [bind get_model set_model ret] in H. now injection H as <- <-.
  - unfold simulate_def in H.
    apply bind_inv in H as (a2 & m2 & H2 & H).
    apply pure_dict_acc in H2 as ->.
    cbv [bind get_model set_model ret] in H. now injection H as <- <-.
  - unfold optimize_def in H.
    apply bind_inv in H as (a2 & m2 & H2 & H).
    apply pure_dict_acc in H2 as ->.
    cbv [bind get_model set_model ret] in H. now injection H as <- <-.
Qed.

End Callbacks.

Lemma substring_prefix (body rest : string) :
  String.substring 0 (String.length body) (body ++ rest) = body.
Proof.
  induction body as [|c b IH].
  - cbn. now destruct rest.
  - rewrite IndentFacts.append_String. cbn [String.length String.substring].
    now rewrite IH.
Qed.

Lemma length_append_one (body : string) c :
  String.length (body ++ String c EmptyString) = S (String.length body).
Proof.
  induction body as [|x b IH]; [reflexivity|].
  rewrite IndentFacts.append_String. cbn [String.length]. now rewrite IH.
Qed.

(** [string] takes the two quotes off and nothing else: whatever stands
    between them is returned as it is, escape sequences included. *)
Theorem string_strips_the_quotes (body : string) (m : model_state) :
  string_ (VStr (Scenario.quoted body)) m = inr (VStr body, m).
Proof.
  unfold string_, ret, Scenario.quoted. do 2 f_equal. f_equal.
  rewrite IndentFacts.append_String. cbn [strip_quotes].
  rewrite length_append_one, Nat.sub_succ, Nat.sub_0_r.
  apply substring_prefix.
Qed.

(** [spec_block] keeps, for a name that occurs more than once, the value of
    its last occurrence. *)
Theorem spec_block_last_wins before k v after (m : model_state) :
  k ∉ after.*1 ->
  exists d, spec_block (attr_items (before ++ (k, v) :: after)) m
            = inr (VDict d, m)
            /\ d !! k = Some v.
Proof.
  intros Hk. unfold spec_block, bind. rewrite dict_attr_items.
  eexists. split; [reflexivity|]. now apply dict_of_last_wins.
Qed.

(** Without an [algorithm] attribute [optimize_def] puts ["gradient"], and
    without a [variables] attribute the empty list. *)
Theorem optimize_def_defaults (kvs : list (string * value)) (m : model_state) :
  "algorithm" ∉ kvs.*1 ->
  "variables" ∉ kvs.*1 ->
  let optimization :=
    Optimization (get (dict_of ∅ kvs) "objective") (VList []) (VList [])
      (VStr "gradient") in
  optimize_def (attr_items kvs) m =
  inr (optimization,
       mkModel (m_site m) (m_equipment m) (m_layouts m) (m_simulation m)
         optimization).
Proof.
  intros Ha Hv optimization. unfold optimize_def, bind.
  rewrite dict_attr_items.
  assert (H1 : get_or (dict_of ∅ kvs) "algorithm" (VStr "gradient")
               = VStr "gradient").
  { unfold get_or. rewrite (dict_of_lookup_notin _ _ _ Ha).
    now rewrite lookup_empty. }
  assert (H2 : get (dict_of ∅ kvs) "variables" = VNone).
  { unfold get. rewrite (dict_of_lookup_notin _ _ _ Hv).
    now rewrite lookup_empty. }
  rewrite H1, H2. reflexivity.
Qed.

Lemma dict_of_lookup_congr kvs (k : string) : forall d d',
  d !! k = d' !! k -> dict_of d kvs !! k = dict_of d' kvs !! k.
Proof.
  induction kvs as [|[k' v'] kvs IH]; intros d d' H; [exact H|].
  rewrite !dict_of_cons. apply IH.
  destruct (decide (k' = k)) as [->|Hne].
  - now rewrite !lookup_insert_eq.
  - now rewrite !lookup_insert_ne.
Qed.

Lemma dict_of_lookup_other before k v after (k' : string) :
  k' <> k ->
  dict_of ∅ (before ++ (k, v) :: after) !! k'
  = dict_of ∅ (before ++ after) !! k'.
Proof.
  intros Hne. rewrite !dict_of_app, dict_of_cons.
  apply dict_of_lookup_congr. apply lookup_insert_ne. congruence.
Qed.

(** An attribute whose name is not a field of the record is dropped
    without a word: [site_def] and [layout_def] give the same record with
    and without it. *)
Theorem unknown_attribute_ignored name before k v after (m : model_state) :
  k ∉ site_fields ->
  k ∉ layout_fields ->
  site_def (name :: attr_items (before ++ (k, v) :: after)) m
  = site_def (name :: attr_items (before ++ after)) m
  /\ layout_def (name :: attr_items (before ++ (k, v) :: after)) m
     = layout_def (name :: attr_items (before ++ after)) m.
Proof.
  intros Hs Hl.
  assert (Hget : forall k', k' <> k ->
            get (dict_of ∅ (before ++ (k, v) :: after)) k'
            = get (dict_of ∅ (before ++ after)) k').
  { intros k' Hne. unfold get. now rewrite dict_of_lookup_other. }
  unfold site_def, layout_def, bind. cbn [item List.nth_error List.tl ret].
  rewrite !dict_attr_items.
  unfold site_fields, layout_fields in *.
  split.
  - rewrite !Hget; [reflexivity|..]; intros <-; apply Hs; set_solver.
  - rewrite !Hget; [reflexivity|..]; intros <-; apply Hl; set_solver.
Qed.

(** A multiplier strictly between 0 and 1 is not taken for an absent one:
    it is truthy, and its count is 0. *)
Theorem equipment_ref_fraction name sign mant e (m : model_state) :
  (Z.pos mant < 2 ^ (- e))%Z ->
  equipment_ref name (VFloat (S754_finite sign mant e)) m
  = inr (EquipmentRef name (VInt 0), m).
Proof.
  intros H. unfold equipment_ref, bind. cbn [truthy PyFloat.truthy py_int ret].
  unfold Ast.new_EquipmentRef, PyFloat.trunc.
  assert (He : (e < 0)%Z).
  { destruct (Z_lt_le_dec e 0%Z) as [Hlt|Hge]; [exact Hlt|].
    exfalso. assert (2 ^ (- e) <= 1)%Z; [|lia].
    destruct (Z.eq_dec e 0%Z) as [->|Hne]; [cbn; lia|].
    rewrite Z.pow_neg_r; lia. }
  replace (0 <=? e)%Z with false by (symmetry; apply Z.leb_gt; exact He).
  rewrite Z.shiftr_div_pow2 by lia.
  rewrite Z.div_small by lia.
  now destruct sign.
Qed.

(** [tracking_mode] accepts the values of the three members of
    [TrackingMode], each giving its member, and raises [ValueError] on every
    other string. *)
Theorem tracking_mode_vocabulary (repr : value -> string) (s : string)
    (m : model_state) :
  (exists t, s = TrackingMode_value t
             /\ tracking_mode repr (VStr s) m = inr (VEnum t, m))
  \/ ((forall t, s <> TrackingMode_value t)
      /\ tracking_mode repr (VStr s) m = inl ValueError).
Proof.
  unfold tracking_mode, Ast.TrackingMode_of. cbn [py_str].
  destruct (String.eqb s "fixed") eqn:E1.
  { apply String.eqb_eq in E1 as ->. left. now exists FIXED. }
  destruct (String.eqb s "single_axis") eqn:E2.
  { apply String.eqb_eq in E2 as ->. left. now exists SINGLE_AXIS. }
  destruct (String.eqb s "dual_axis") eqn:E3.
  { apply String.eqb_eq in E3 as ->. left. now exists DUAL_AXIS. }
  right. split; [|reflexivity].
  apply String.eqb_neq in E1, E2, E3. now intros [].
Qed.

Lemma callback_stores_its_result_witness :
  mkModel (Site (VStr "s") VNone VNone VNone VNone VNone) [] [] VNone VNone
  = store Lark.site_def (Site (VStr "s") VNone VNone VNone VNone VNone)
      init_model.
Proof.
  apply (callback_stores_its_result (fun _ => "") Lark.site_def [VStr "s"]
           init_model).
  reflexivity.
Defined.

Lemma spec_block_last_wins_witness :
  exists d,
    spec_block
      (attr_items ([] ++ ("capacity", VStr "400kW") ::
                   [("capacity", VStr "500kW")]))
      init_model
    = inr (VDict d, init_model)
    /\ d !! "capacity" = Some (VStr "500kW").
Proof.
  apply (spec_block_last_wins [("capacity", VStr "400kW")] "capacity"
           (VStr "500kW") [] init_model).
  apply (bool_decide_unpack _). vm_compute. exact I.
Defined.

Lemma optimize_def_defaults_witness :
  optimize_def (attr_items [("objective", Objective (VStr "maximize") (VStr "energy"))])
    init_model
  = inr (Optimization (Objective (VStr "maximize") (VStr "energy"))
           (VList []) (VList []) (VStr "gradient"),
         mkModel VNone [] [] VNone
           (Optimization (Objective (VStr "maximize") (VStr "energy"))
              (VList []) (VList []) (VStr "gradient"))).
Proof.
  apply (optimize_def_defaults
           [("objective", Objective (VStr "maximize") (VStr "energy"))]
           init_model);
    apply (bool_decide_unpack _); vm_compute; exact I.
Defined.

Lemma unknown_attribute_ignored_witness :
  site_def (VStr "s" :: attr_items ([] ++ ("turbines", VStr "T1") :: []))
    init_model
  = site_def (VStr "s" :: attr_items ([] ++ [])) init_model
  /\ layout_def (VStr "s" :: attr_items ([] ++ ("turbines", VStr "T1") :: []))
       init_model
     = layout_def (VStr "s" :: attr_items ([] ++ [])) init_model.
Proof.
  apply (unknown_attribute_ignored (VStr "s") [] "turbines" (VStr "T1") []
           init_model);
    apply (bool_decide_unpack _); vm_compute; exact I.
Defined.

Lemma equipment_ref_fraction_witness :
  equipment_ref (VStr "P1")
    (VFloat (S754_finite false 4503599627370496 (-53))) init_model
  = inr (EquipmentRef (VStr "P1") (VInt 0), init_model).
Proof.
  apply (equipment_ref_fraction (VStr "P1") false 4503599627370496 (-53)
           init_model).
  reflexivity.
Defined.

End TransformerExtra.

(** * The constraints of an optimization *)

Module OptimizeFacts.

Import Transformer TransformerProps TreeFacts TransformerExtra.

Section WithRepr.

Variable repr : value -> string.

(** Whatever its items, when [optimize_def] returns, the model holds an
    [Optimization] built without constraints. *)
Lemma optimize_def_stores items m v m' :
  optimize_def items m = inr (v, m') ->
  without_constraints (m_optimization m').
Proof.
  intros H. unfold optimize_def in H.
  apply bind_inv in H as (attrs & m2 & H2 & H).
  apply pure_dict_acc in H2 as ->.
  cbv [bind get_model set_model ret] in H. injection H as _ <-.
  cbn [m_optimization]. unfold Ast.new_Optimization.
  now eexists _, _, _.
Qed.

Lemma without_constraints_change m m' :
  state_change m m' ->
  without_constraints (m_optimization m) ->
  without_constraints (m_optimization m').
Proof.
  intros Hc H. destruct Hc; cbn [m_optimization]; try exact H.
  now eexists _, _, _.
Qed.

Lemma transform_children_preserves (P : model_state -> Prop) :
  (forall m m', state_change m m' -> P m -> P m') ->
  forall ts m vs m',
    transform_children repr ts m = inr (vs, m') -> P m -> P m'.
Proof.
  intros HP ts. induction ts as [|c cs IH]; intros m vs m' H Hm.
  - injection H as _ <-. exact Hm.
  - rewrite transform_children_cons in H.
    destruct (transform_tree repr c m) as [e|[v0 m0]] eqn:E0; [discriminate|].
    destruct (transform_children repr cs m0) as [e|[vs' m2]] eqn:E1;
      [discriminate|].
    injection H as _ <-.
    apply (IH _ _ _ E1).
    exact (transform_tree_preserves repr P HP _ _ _ _ E0 Hm).
Qed.

(** After the traversal of a tree with an [optimize] block, the model
    holds an [Optimization] without constraints: the block's callback
    stores one, and what comes after it keeps it or stores another. *)
Lemma transform_tree_optimize (t : Lark.tree) :
  forall m v m',
    transform_tree repr t m = inr (v, m') ->
    has_optimize_block t = true ->
    without_constraints (m_optimization m').
Proof.
  induction t as [type text|r children IH] using tree_induction;
    intros m v m' H Hb; [discriminate Hb|].
  rewrite transform_tree_Tree in H.
  destruct (transform_children repr children m) as [e|[vs m1]] eqn:Ec;
    [discriminate|].
  unfold call in H.
  destruct (call_userfunc repr r vs m1) as [e|[v1 m2]] eqn:Eu;
    [discriminate|].
  injection H as _ <-.
  cbn [has_optimize_block] in Hb. apply orb_true_iff in Hb as [Hr|Hc].
  - destruct r; try discriminate Hr. exact (optimize_def_stores _ _ _ _ Eu).
  - apply (without_constraints_change _ _ (call_userfunc_change repr _ _ _ _ _ Eu)).
    clear Eu. revert m vs m1 Ec Hc.
    induction IH as [|c cs Hhead _ IHcs]; intros m vs m1 Ec Hc;
      [discriminate Hc|].
    rewrite transform_children_cons in Ec.
    destruct (transform_tree repr c m) as [e|[v0 m0]] eqn:E0; [discriminate|].
    destruct (transform_children repr cs m0) as [e|[vs' m3]] eqn:E1;
      [discriminate|].
    injection Ec as _ <-.
    cbn [List.existsb] in Hc. apply orb_true_iff in Hc as [Hhere|Hlater].
    + apply (transform_children_preserves
               (fun x => without_constraints (m_optimization x))
               without_constraints_change _ _ _ _ E1).
      exact (Hhead _ _ _ E0 Hhere).
    + exact (IHcs _ _ _ E1 Hlater).
Qed.

(** C9: every model that the transformer returns for a tree with an
    [optimize] block has an [Optimization] whose [constraints] is the empty
    list, whatever else the tree holds: no callback puts a constraint. *)
Theorem optimize_block_constraints_empty (children : list Lark.tree)
    (v : value) :
  transform repr (Lark.Tree Lark.start children) = inr v ->
  List.existsb has_optimize_block children = true ->
  exists site equipment layouts simulation objective variables algorithm,
    v = Model site equipment layouts simulation
          (Optimization objective variables (VList []) algorithm).
Proof.
  unfold transform.
  destruct (transform_tree repr (Lark.Tree Lark.start children) init_model)
    as [e|[v' m']] eqn:E; [discriminate|].
  intros [= <-] Hb.
  assert (Ho : without_constraints (m_optimization m')).
  { apply (transform_tree_optimize _ _ _ _ E). cbn [has_optimize_block].
    now rewrite Hb. }
  rewrite transform_tree_Tree in E.
  destruct (transform_children repr children init_model) as [e|[vs m1]];
    [discriminate|].
  cbv [call call_userfunc start_ bind get_model ret] in E.
  injection E as <- <-.
  destruct Ho as (objective & variables & algorithm & Ho).
  exists (m_site m1), (m_equipment m1), (m_layouts m1), (m_simulation m1),
    objective, variables, algorithm.
  unfold model_value. now rewrite Ho.
Qed.

End WithRepr.

Lemma optimize_block_constraints_empty_witness :
  exists site equipment layouts simulation objective variables algorithm,
    Model VNone [] [] VNone
      (Optimization VNone (VList []) (VList []) (VStr "gradient"))
    = Model site equipment layouts simulation
        (Optimization objective variables (VList []) algorithm).
Proof.
  apply (optimize_block_constraints_empty (fun _ => "")
           [Scenario.statement_optimize]);
    reflexivity.
Defined.

End OptimizeFacts.

(** * Properties of the string forms and of the simulator's helpers *)

Module AstExtra.

Import Transformer AstStr.

(** [Coordinate.__str__] gives back what [coordinate] was given, for
    finite magnitudes that are not zero: the two magnitudes and the two
    letters.  A magnitude of zero is printed with [N] or [E] whatever the
    letter was: the sign of a zero is not looked at. *)
Theorem coordinate_str_round_trip (repr : value -> string)
    (south west : bool) (mx my : positive) (ex ey : Z) (m : model_state) :
  let x := S754_finite false mx ex in
  let y := S754_finite false my ey in
  let zero := S754_zero false in
  let ns := if south then "S" else "N" in
  let ew := if west then "W" else "E" in
  (exists lat lon,
     coordinate (VFloat x) (VStr ns) (VFloat y) (VStr ew) m
     = inr (Coordinate lat lon, m)
     /\ Coordinate_str repr lat lon
        = inr (repr (VFloat x) ++ Grammar.degree_sign ++ ns ++ ", "
               ++ repr (VFloat y) ++ Grammar.degree_sign ++ ew))
  /\ (exists lat lon,
        coordinate (VFloat zero) (VStr ns) (VFloat zero) (VStr ew) m
        = inr (Coordinate lat lon, m)
        /\ Coordinate_str repr lat lon
           = inr (repr (VFloat zero) ++ Grammar.degree_sign ++ "N" ++ ", "
                  ++ repr (VFloat zero) ++ Grammar.degree_sign ++ "E")).
Proof.
  destruct south, west; cbv zeta; split; eexists _, _;
    (split; [reflexivity|]); reflexivity.
Qed.

(** The string of the [EquipmentRef] that [equipment_ref] builds from a
    finite multiplier: the name alone when the multiplier truncates to 0,
    as for an absent multiplier, and the name, [" * "] and the count
    otherwise. *)
Theorem equipment_ref_str (repr : value -> string) (name : string)
    (sign : bool) (mant : positive) (e : Z) (m : model_state) :
  let n := PyFloat.trunc sign mant e in
  (exists count,
     equipment_ref (VStr name) (VFloat (S754_finite sign mant e)) m
     = inr (EquipmentRef (VStr name) count, m)
     /\ EquipmentRef_str repr (VStr name) count
        = inr (if (n =? 0)%Z then name
               else name ++ " * " ++ NilZero.string_of_int (Z.to_int n)))
  /\ (exists count,
        equipment_ref (VStr name) VNone m
        = inr (EquipmentRef (VStr name) count, m)
        /\ EquipmentRef_str repr (VStr name) count = inr name).
Proof.
  intros n. split.
  - exists (VInt n). split; [reflexivity|].
    unfold EquipmentRef_str. cbn [truthy fmt].
    now destruct (n =? 0)%Z.
  - exists VNone. split; reflexivity.
Qed.

End AstExtra.

Module SimulatorExtra.

Import SolarSimulator.

(** An orientation that is not one of [north], [east] and [west] is taken
    for south, as a missing one is: a misspelt name is not reported. *)
Theorem orientation_defaults_to_south (s : string) :
  s ∉ ["north"; "east"; "west"] ->
  _orientation_to_azimuth (Some s) = 180%Z
  /\ _orientation_to_azimuth None = 180%Z.
Proof.
  intros H. split; [|reflexivity]. unfold _orientation_to_azimuth.
  destruct (String.eqb s "south"); [reflexivity|].
  destruct (String.eqb s "north") eqn:E1.
  { apply String.eqb_eq in E1 as ->. exfalso. apply H. set_solver. }
  destruct (String.eqb s "east") eqn:E2.
  { apply String.eqb_eq in E2 as ->. exfalso. apply H. set_solver. }
  destruct (String.eqb s "west") eqn:E3.
  { apply String.eqb_eq in E3 as ->. exfalso. apply H. set_solver. }
  reflexivity.
Qed.

Lemma orientation_defaults_to_south_witness :
  _orientation_to_azimuth (Some "sout") = 180%Z
  /\ _orientation_to_azimuth None = 180%Z.
Proof.
  apply (orientation_defaults_to_south "sout").
  apply (bool_decide_unpack _). vm_compute. exact I.
Defined.

(** The number of strings per inverter is at least 1; with 20 panels or
    more, the strings hold as many panels as 20 divides into the count, the
    remainder being left out; with fewer, one string of 20 modules is
    simulated all the same. *)
Theorem strings_per_inverter_bounds (c : Z) :
  c <> 0%Z ->
  let n := strings_per_inverter (Some c) in
  (1 <= n)%Z
  /\ ((20 <= c)%Z -> (20 * n <= c < 20 * n + 20)%Z)
  /\ ((c < 20)%Z -> n = 1%Z).
Proof.
  intros Hc n. unfold n, strings_per_inverter.
  apply Z.eqb_neq in Hc as Hc'. rewrite Hc'.
  pose proof (Z.div_mod c 20 ltac:(lia)) as Hdm.
  pose proof (Z.mod_pos_bound c 20 ltac:(lia)) as Hm.
  repeat split; lia.
Qed.

Lemma strings_per_inverter_bounds_witness :
  (1 <= 50)%Z
  /\ ((20 <= 1000)%Z -> (20 * 50 <= 1000 < 20 * 50 + 20)%Z)
  /\ ((1000 < 20)%Z -> 50%Z = 1%Z).
Proof.
  apply (strings_per_inverter_bounds 1000). discriminate.
Defined.

End SimulatorExtra.

Module ParseExtra.

(** The witness of [ParseFacts.parse_never_returns]: the parser that knows
    the document of Scenario A. *)
Lemma parse_never_returns_witness :
  exists e, parse (fun _ => "") Scenario.lark_rejects Scenario.text_A = inl e.
Proof.
  refine (ParseFacts.parse_never_returns (fun _ => "") Scenario.lark_rejects
            (fun _ => None) _ Scenario.text_A).
  intros s t H. discriminate H.
Defined.

End ParseExtra.

(** * Further properties of the grammar and of its trees *)

Module GrammarExtra.

Import Grammar GrammarProps.

Lemma open_blocks_app a b :
  open_blocks (a ++ b) = (open_blocks a + open_blocks b)%Z.
Proof.
  unfold open_blocks. rewrite !List.filter_app, !List.length_app. lia.
Qed.

Lemma open_blocks_concat {A} (f : A -> list token) (xs : list A) :
  (forall x, open_blocks (f x) = 0%Z) ->
  open_blocks (List.concat (List.map f xs)) = 0%Z.
Proof.
  intros H. induction xs as [|x xs IH]; [reflexivity|].
  cbn [List.map List.concat]. rewrite open_blocks_app, H, IH. reflexivity.
Qed.

Lemma open_blocks_block body :
  open_blocks body = 0%Z -> open_blocks (block body) = 0%Z.
Proof.
  intros H. unfold block.
  change (T ":" :: T_NL :: T_INDENT :: body ++ [T_DEDENT])%list
    with ([T ":"; T_NL; T_INDENT] ++ body ++ [T_DEDENT])%list.
  rewrite !open_blocks_app, H. reflexivity.
Qed.

Lemma open_blocks_quantity q : open_blocks (yield_quantity q) = 0%Z.
Proof. reflexivity. Qed.

Lemma open_blocks_strings xs : open_blocks (yield_strings xs) = 0%Z.
Proof.
  induction xs as [|x xs IH]; [reflexivity|].
  change (yield_strings (x :: xs))
    with ([T ","; T_STRING x] ++ yield_strings xs)%list.
  now rewrite open_blocks_app, IH.
Qed.

Lemma open_blocks_names xs : open_blocks (yield_names xs) = 0%Z.
Proof.
  induction xs as [|x xs IH]; [reflexivity|].
  change (yield_names (x :: xs))
    with ([T ","; T_NAME x] ++ yield_names xs)%list.
  now rewrite open_blocks_app, IH.
Qed.

Lemma open_blocks_site_attr a : open_blocks (yield_site_attr a) = 0%Z.
Proof. destruct a; reflexivity. Qed.

Lemma open_blocks_spec e : open_blocks (yield_spec e) = 0%Z.
Proof. destruct e as [? []]; reflexivity. Qed.

Lemma open_blocks_item i : open_blocks (yield_item i) = 0%Z.
Proof.
  destruct i as [ty name [[e es]|]]; [|reflexivity].
  unfold yield_item. cbn [item_type item_name item_specs].
  change (T ?x :: T_STRING name :: ?rest)%list
    with ([T x; T_STRING name] ++ rest)%list.
  rewrite open_blocks_app, open_blocks_app.
  change (T ":" :: T_NL :: T_INDENT ::
          List.concat (List.map yield_spec (e :: es)) ++ [T_DEDENT])%list
    with (block (List.concat (List.map yield_spec (e :: es)))).
  rewrite open_blocks_block; [reflexivity|].
  apply open_blocks_concat, open_blocks_spec.
Qed.

Lemma open_blocks_layout_attr a : open_blocks (yield_layout_attr a) = 0%Z.
Proof. destruct a as [[? []]|[? []]| | | |]; reflexivity. Qed.

Lemma open_blocks_simulate_attr a : open_blocks (yield_simulate_attr a) = 0%Z.
Proof.
  destruct a as [p x xs|d|d|n ns]; try reflexivity.
  - unfold yield_simulate_attr.
    change (T "weather" :: T ":" :: T_NAME p :: T "(" :: T_STRING x ::
            yield_strings xs ++ [T ")"])%list
      with ([T "weather"; T ":"; T_NAME p; T "("; T_STRING x]
            ++ yield_strings xs ++ [T ")"])%list.
    now rewrite !open_blocks_app, open_blocks_strings.
  - unfold yield_simulate_attr.
    change (T "outputs" :: T ":" :: T "[" :: T_NAME n ::
            yield_names ns ++ [T "]"])%list
      with ([T "outputs"; T ":"; T "["; T_NAME n]
            ++ yield_names ns ++ [T "]"])%list.
    now rewrite !open_blocks_app, open_blocks_names.
Qed.

Lemma open_blocks_optimize_attr a : open_blocks (yield_optimize_attr a) = 0%Z.
Proof.
  destruct a as [mode target|n ns|s]; try reflexivity.
  unfold yield_optimize_attr.
  change (T "variables" :: T ":" :: T "[" :: T_NAME n ::
          yield_names ns ++ [T "]"])%list
    with ([T "variables"; T ":"; T "["; T_NAME n]
          ++ yield_names ns ++ [T "]"])%list.
  now rewrite !open_blocks_app, open_blocks_names.
Qed.

Lemma open_blocks_statement st : open_blocks (yield_statement st) = 0%Z.
Proof.
  destruct st as [name a attrs|i items|name a attrs|a attrs|a attrs];
    unfold yield_statement.
  - change (T "site" :: T_STRING name :: ?b)%list
      with ([T "site"; T_STRING name] ++ b)%list.
    rewrite open_blocks_app, open_blocks_block; [reflexivity|].
    apply open_blocks_concat, open_blocks_site_attr.
  - change (T "equipment" :: ?b)%list with ([T "equipment"] ++ b)%list.
    rewrite open_blocks_app, open_blocks_block; [reflexivity|].
    apply open_blocks_concat, open_blocks_item.
  - change (T "layout" :: T_STRING name :: ?b)%list
      with ([T "layout"; T_STRING name] ++ b)%list.
    rewrite open_blocks_app, open_blocks_block; [reflexivity|].
    apply open_blocks_concat, open_blocks_layout_attr.
  - change (T "simulate" :: ?b)%list with ([T "simulate"] ++ b)%list.
    rewrite open_blocks_app, open_blocks_block; [reflexivity|].
    apply open_blocks_concat, open_blocks_simulate_attr.
  - change (T "optimize" :: ?b)%list with ([T "optimize"] ++ b)%list.
    rewrite open_blocks_app, open_blocks_block; [reflexivity|].
    apply open_blocks_concat, open_blocks_optimize_attr.
Qed.

(** Every token sequence that [GRAMMAR] derives has as many block-start
    markers as block-end markers. *)
Theorem grammar_blocks_balanced (d : start_d) :
  open_blocks (yield_start d) = 0%Z.
Proof.
  unfold yield_start. apply open_blocks_concat, open_blocks_statement.
Qed.

End GrammarExtra.

Module TreeExtra.

Import Transformer.

Section WithRepr.

Variable repr : value -> string.

Lemma transform_names (names : list string) : forall m,
  transform_children repr (List.map (Lark.Token Lark.NAME) names) m
  = inr (List.map VStr names, m).
Proof.
  induction names as [|n ns IH]; intros m; [reflexivity|].
  cbn [List.map]. rewrite TreeFacts.transform_children_cons.
  cbn [transform_tree call_userfunc_token].
  unfold call, NAME, ret. cbn [py_str]. now rewrite IH.
Qed.

Lemma transform_strings (xs : list string) : forall m,
  transform_children repr (List.map Grammar.tree_of_string xs) m
  = inr (List.map (fun x => VStr (strip_quotes x)) xs, m).
Proof.
  induction xs as [|x xs IH]; intros m; [reflexivity|].
  cbn [List.map]. rewrite TreeFacts.transform_children_cons.
  unfold Grammar.tree_of_string at 1.
  rewrite TreeFacts.transform_tree_Tree.
  cbn [transform_children transform_tree call_userfunc_token].
  cbv [call call_userfunc inline1 string_ ret Lark.rule_name].
  now rewrite IH.
Qed.

Lemma strip_quotes_quoted (body : string) :
  strip_quotes (Scenario.quoted body) = body.
Proof.
  unfold Scenario.quoted. rewrite IndentFacts.append_String.
  cbn [strip_quotes].
  rewrite TransformerExtra.length_append_one, Nat.sub_succ, Nat.sub_0_r.
  apply TransformerExtra.substring_prefix.
Qed.

Lemma map_py_str_names (names : list string) :
  List.map (fun i => VStr (py_str repr i)) (List.map VStr names)
  = List.map VStr names.
Proof. induction names as [|n ns IH]; [reflexivity|]. cbn. now rewrite IH. Qed.

(** The two list rules work on the trees of the grammar: the branch of an
    [output_list] or of a [variable_list] is transformed into the list of
    its names, in order. *)
Theorem name_lists_transformed (name : string) (names : list string) :
  transform repr
    (Lark.Tree Lark.output_list
       (List.map (Lark.Token Lark.NAME) (name :: names)))
  = inr (VList (List.map VStr (name :: names)))
  /\ transform repr
       (Lark.Tree Lark.variable_list
          (List.map (Lark.Token Lark.NAME) (name :: names)))
     = inr (VList (List.map VStr (name :: names))).
Proof.
  unfold transform. rewrite !TreeFacts.transform_tree_Tree, !transform_names.
  cbv [call call_userfunc output_list variable_list ret].
  now rewrite !map_py_str_names.
Qed.

(** The branch of a [weather_source] is transformed into the provider and
    the list of its arguments, each without its two quotes, in order. *)
Theorem weather_source_transformed (provider arg : string) (args : list string) :
  transform repr
    (Lark.Tree Lark.weather_source
       (Lark.Token Lark.NAME provider
        :: List.map Grammar.tree_of_string
             (List.map Scenario.quoted (arg :: args))))
  = inr (WeatherSource (VStr provider) (VList (List.map VStr (arg :: args)))).
Proof.
  unfold transform.
  rewrite TreeFacts.transform_tree_Tree, TreeFacts.transform_children_cons.
  cbn [transform_tree call_userfunc_token]. unfold call at 1, NAME, ret.
  cbn [py_str]. rewrite transform_strings.
  cbv [call call_userfunc weather_source bind item List.nth_error ret List.tl].
  rewrite List.map_map.
  rewrite (List.map_ext _ VStr); [reflexivity|].
  intros body. now rewrite strip_quotes_quoted.
Qed.

End WithRepr.

End TreeExtra.
